(** * PDC-Lab-Mid: the image-benchmark harness, embedded in Rocq

    A shallow embedding of the three scripts of the repository,

      - [sequential_process.py]  (one process, one loop),
      - [parallel_process.py]    (a 1-worker baseline, then [multiprocessing.Pool]),
      - [distributed_sim.py]     (two simulated nodes and a result queue),

    and the properties of their partitioning, dispatch and aggregation code.

    Conventions of the embedding.
      - Python [int] is [Z]; Python [float] is the kernel's binary64 [float],
        with the [ZeroDivisionError] of [/] written out.
      - A path is the list of its components ([os.path.join] appends,
        [os.path.relpath] strips the common prefix).
      - Pillow, the filesystem, the clock and the arrival order of the result
        queue are external: they are the fields of [Externals], functions of an
        abstract [world] that every call threads through.
      - Statements run in a state-and-exception monad [M]; the state holds the
        world, an event log ([Call], [Saved], [PrintError]) and the queue.
      - Worker processes are run under one schedule, in task order; the order
        in which node results reach the queue is left to [queue_order]. *)

From Stdlib Require Import ZArith List String Ascii Bool Lia Floats.
From Stdlib Require Import Permutation Sorted.
Import ListNotations.

#[local] Set Warnings "-inexact-float".

Local Open Scope Z_scope.

(** ** Python values and exceptions *)

Module Py.

(** The classes of the exceptions that occur; every one derives from
    [Exception]. [IOError] is an alias of [OSError]; [UserDefined] names any
    other class by its name. *)
Inductive exc_class : Type :=
  | OSError
  | ZeroDivisionError
  | ValueError
  | IndexError
  | UserDefined (name : string).

Record pyexn : Type := mk_exn { exn_class : exc_class; exn_msg : string }.

Definition is_OSError (e : pyexn) : bool :=
  match exn_class e with OSError => true | _ => false end.

Inductive pyresult (A : Type) : Type :=
  | Ok (a : A)
  | Raise (e : pyexn).
Arguments Ok {A} a.
Arguments Raise {A} e.

(** What a call of [process_image] can return. *)
Inductive pyval : Type :=
  | PyNone
  | PyBool (b : bool).

(** [i] as a slice bound of a sequence of length [n]. *)
Definition clamp_index (n i : Z) : Z :=
  if i <? 0 then Z.max 0 (n + i) else Z.min i n.

(** [l[start:stop]], a missing bound being [None]. *)
Definition slice {A : Type} (l : list A) (start stop : option Z) : list A :=
  let n := Z.of_nat (List.length l) in
  let lo := match start with None => 0 | Some i => clamp_index n i end in
  let hi := match stop with None => n | Some j => clamp_index n j end in
  firstn (Z.to_nat (hi - lo)) (skipn (Z.to_nat lo) l).

(** [l[i]]. *)
Definition index {A : Type} (l : list A) (i : Z) : pyresult A :=
  let n := Z.of_nat (List.length l) in
  let j := if i <? 0 then i + n else i in
  if (j <? 0) || (n <=? j) then
    Raise (mk_exn IndexError "list index out of range")
  else
    match nth_error l (Z.to_nat j) with
    | Some x => Ok x
    | None => Raise (mk_exn IndexError "list index out of range")
    end.

(** [range(n)]. *)
Definition range (n : Z) : list Z :=
  map Z.of_nat (seq 0 (Z.to_nat n)).

(** [math.ceil(a / b)] on two [int]s. The true division is correctly rounded
    and a list length stays far below 2^53, so the ceiling of the quotient is
    the exact one. *)
Definition ceil_div (a b : Z) : pyresult Z :=
  if b =? 0 then Raise (mk_exn ZeroDivisionError "division by zero")
  else Ok (- ((- a) / b)).

(** [a / b] on two [float]s. *)
Definition truediv (a b : float) : pyresult float :=
  if PrimFloat.eqb b 0%float then
    Raise (mk_exn ZeroDivisionError "float division by zero")
  else Ok (PrimFloat.div a b).

(** [str.lower], on ASCII letters. *)
Definition lower_ascii (c : ascii) : ascii :=
  let n := nat_of_ascii c in
  if (Nat.leb 65 n && Nat.leb n 90)%bool then ascii_of_nat (n + 32) else c.

Fixpoint lower (s : string) : string :=
  match s with
  | EmptyString => EmptyString
  | String c s' => String (lower_ascii c) (lower s')
  end.

(** [s.endswith(suffix)]. *)
Definition endswith (s suffix : string) : bool :=
  let n := String.length s in
  let m := String.length suffix in
  Nat.leb m n && String.eqb (substring (n - m) m s) suffix.

End Py.
Export Py.

(** ** Paths *)

Module Path.

Definition path : Type := list string.

(** [os.path.join(a, b)] for a relative [b]. *)
Definition join (a b : path) : path := a ++ b.

(** [os.path.dirname]. *)
Definition dirname (p : path) : path := removelast p.

Fixpoint strip_common (p start : path) : path * path :=
  match p, start with
  | c :: p', d :: start' =>
      if String.eqb c d then strip_common p' start' else (p, start)
  | _, _ => (p, start)
  end.

(** [os.path.relpath(p, start)] on two absolute, normalised paths: one [..]
    for what is left of [start] after the common prefix, then what is left of
    [p]; [.] when nothing is left at all. *)
Definition relpath (p start : path) : path :=
  let '(p', start') := strip_common p start in
  match repeat ".."%string (List.length start') ++ p' with
  | [] => ["."%string]
  | r => r
  end.

End Path.
Export Path.

(** ** The outside world and the monad of statements *)

Module World.

(** What a node sends to the master: [(node_id, len(image_list), time_taken)]. *)
Definition node_result : Type := (Z * Z * float)%type.

(** Pillow, [os], [time] and the queue's arrival order. An exception raised by
    a call is a [Raise]; every call may change the world. *)
Record Externals : Type := {
  world : Type;
  image : Type;
  font : Type;
  SCRIPT_DIR : path;
  perf_counter : world -> float * world;
  os_walk : path -> world -> list (path * list string);
  Image_open : path -> world -> pyresult image * world;
  img_resize : image -> Z * Z -> world -> pyresult image * world;
  img_mode_is_RGB : image -> bool;
  img_convert_RGB : image -> world -> pyresult image * world;
  ImageDraw_Draw : image -> world -> pyresult image * world;
  ImageFont_truetype : string -> Z -> world -> pyresult font * world;
  ImageFont_load_default : world -> pyresult font * world;
  draw_text :
    image -> Z * Z -> string -> font -> Z * Z * Z ->
    world -> pyresult image * world;
  os_makedirs : path -> world -> pyresult unit * world;
  img_save : image -> path -> world -> pyresult unit * world;
  queue_order : world -> list node_result -> list node_result
}.

(** The log: a call of [process_image], a completed [img.save], and the line
    printed by the handler of [process_image]. *)
Inductive event : Type :=
  | Call (input output : path)
  | Saved (output : path)
  | PrintError (input : path) (e : pyexn).

Record state (E : Externals) : Type := mk_state {
  st_world : world E;
  st_log : list event;
  st_queue : list node_result
}.

Arguments st_world {E} s.
Arguments st_log {E} s.
Arguments st_queue {E} s.

Definition M (E : Externals) (A : Type) : Type :=
  state E -> pyresult A * state E.

Section Monad.
Variable E : Externals.

Definition ret {A : Type} (a : A) : M E A := fun s => (Ok a, s).

Definition raise {A : Type} (e : pyexn) : M E A := fun s => (Raise e, s).

Definition bind {A B : Type} (m : M E A) (k : A -> M E B) : M E B :=
  fun s =>
    match m s with
    | (Ok a, s') => k a s'
    | (Raise e, s') => (Raise e, s')
    end.

(** [try: m  except Exception as e: h e]. *)
Definition try_except {A : Type} (m : M E A) (h : pyexn -> M E A) : M E A :=
  fun s =>
    match m s with
    | (Ok a, s') => (Ok a, s')
    | (Raise e, s') => h e s'
    end.

(** [try: m  except IOError: h]. *)
Definition try_except_IOError {A : Type} (m h : M E A) : M E A :=
  fun s =>
    match m s with
    | (Ok a, s') => (Ok a, s')
    | (Raise e, s') => if is_OSError e then h s' else (Raise e, s')
    end.

(** A call into the outside world. *)
Definition call {A : Type} (f : world E -> pyresult A * world E) : M E A :=
  fun s =>
    let '(r, w) := f (st_world s) in
    (r, mk_state E w (st_log s) (st_queue s)).

(** A look at the outside world. *)
Definition observe {A : Type} (f : world E -> A) : M E A :=
  fun s => (Ok (f (st_world s)), s).

(** A pure computation that may raise. *)
Definition lift {A : Type} (r : pyresult A) : M E A := fun s => (r, s).

Definition clock : M E float :=
  fun s =>
    let '(t, w) := perf_counter E (st_world s) in
    (Ok t, mk_state E w (st_log s) (st_queue s)).

Definition emit (ev : event) : M E unit :=
  fun s => (Ok tt, mk_state E (st_world s) (st_log s ++ [ev]) (st_queue s)).

(** [result_queue.put(r)]. *)
Definition queue_put (r : node_result) : M E unit :=
  fun s => (Ok tt, mk_state E (st_world s) (st_log s) (st_queue s ++ [r])).

(** [while not result_queue.empty(): node_times.append(result_queue.get())]:
    the items come out in the order they arrived in. *)
Definition queue_drain : M E (list node_result) :=
  fun s =>
    (Ok (queue_order E (st_world s) (st_queue s)),
     mk_state E (st_world s) (st_log s) []).

(** [[f(x) for x in l]]. *)
Fixpoint mapM {A B : Type} (f : A -> M E B) (l : list A) : M E (list B) :=
  match l with
  | [] => ret []
  | x :: l' => bind (f x) (fun y => bind (mapM f l') (fun ys => ret (y :: ys)))
  end.

(** [for x in l: f(x)]. *)
Fixpoint forM_ {A B : Type} (f : A -> M E B) (l : list A) : M E unit :=
  match l with
  | [] => ret tt
  | x :: l' => bind (f x) (fun _ => forM_ f l')
  end.

End Monad.

Arguments ret {E A} a.
Arguments raise {E A} e.
Arguments bind {E A B} m k.
Arguments try_except {E A} m h.
Arguments try_except_IOError {E A} m h.
Arguments call {E A} f.
Arguments observe {E A} f.
Arguments lift {E A} r.
Arguments clock {E}.
Arguments emit {E} ev.
Arguments queue_put {E} r.
Arguments queue_drain {E}.
Arguments mapM {E A B} f l.
Arguments forM_ {E A B} f l.

End World.
Export World.

Declare Scope py_scope.
Delimit Scope py_scope with py.
Notation "x <- m ;; k" := (bind m (fun x => k))
  (at level 61, m at next level, right associativity) : py_scope.
Notation "m ;;; k" := (bind m (fun _ => k))
  (at level 61, right associativity) : py_scope.
Open Scope py_scope.

(** ** What the three scripts share *)

Module Common.
Section Common.
Variable E : Externals.

Definition TARGET_SIZE : Z * Z := (128, 128).
Definition WATERMARK_TEXT : string := "CUI-LHR SP23".

Definition SOURCE_DIR : path := join (SCRIPT_DIR E) ["images_dataset"%string].

(** The suite of the [try] of [process_image], the same in the three files. *)
Definition transform_suite (input_path output_path : path) : M E unit :=
  img <- call (Image_open E input_path) ;;
  img <- call (img_resize E img TARGET_SIZE) ;;
  img <- (if negb (img_mode_is_RGB E img)
          then call (img_convert_RGB E img) else ret img) ;;
  draw <- call (ImageDraw_Draw E img) ;;
  font <- try_except_IOError
            (call (ImageFont_truetype E "arial.ttf" 10))
            (call (ImageFont_load_default E)) ;;
  let text_position := (5, snd TARGET_SIZE - 15) in
  let text_color := (255, 255, 255) in
  img <- call (draw_text E draw text_position WATERMARK_TEXT font text_color) ;;
  call (os_makedirs E (dirname output_path)) ;;;
  call (img_save E img output_path) ;;;
  emit (Saved output_path).

(** [file.lower().endswith(('.png', '.jpg', '.jpeg', '.bmp'))]. *)
Definition is_image_file (file : string) : bool :=
  existsb (endswith (lower file))
    [".png"%string; ".jpg"%string; ".jpeg"%string; ".bmp"%string].

(** The two nested loops over [os.walk(SOURCE_DIR)]: every [input_path]. *)
Definition walk_image_paths (w : world E) : list path :=
  flat_map
    (fun '(root, files) =>
       map (fun file => join root [file]) (filter is_image_file files))
    (os_walk E SOURCE_DIR w).

(** The same loops building [(input_path, output_path)] pairs. *)
Definition walk_tasks (OUTPUT_DIR : path) (w : world E) : list (path * path) :=
  map (fun input_path =>
         let relative_path := relpath input_path SOURCE_DIR in
         (input_path, join OUTPUT_DIR relative_path))
      (walk_image_paths w).

End Common.
End Common.
Export Common.

(** ** sequential_process.py *)

Module Sequential.
Section Sequential.
Variable E : Externals.

Definition OUTPUT_DIR : path := join (SCRIPT_DIR E) ["output_seq"%string].

(** [process_image(input_path, output_path)]: no [return] on either branch. *)
Definition process_image (input_path output_path : path) : M E pyval :=
  emit (Call input_path output_path) ;;;
  try_except
    (transform_suite E input_path output_path)
    (fun e => emit (PrintError input_path e)) ;;;
  ret PyNone.

(** [main()]: returns the elapsed time. *)
Definition main : M E float :=
  total_start_time <- clock ;;
  image_files <- observe (walk_tasks E OUTPUT_DIR) ;;
  forM_ (fun '(input_path, output_path) =>
           process_image input_path output_path) image_files ;;;
  total_end_time <- clock ;;
  ret (total_end_time - total_start_time)%float.

End Sequential.
End Sequential.

(** ** parallel_process.py *)

Module Parallel.
Section Parallel.
Variable E : Externals.

Definition OUTPUT_DIR : path := join (SCRIPT_DIR E) ["output_parallel"%string].

(** A row of [results_table]: [(workers, time_s, speedup)]. *)
Definition row : Type := (Z * float * float)%type.

(** [process_image(image_paths)]: [True] after the suite, [False] from the
    handler. *)
Definition process_image (image_paths : path * path) : M E pyval :=
  let '(input_path, output_path) := image_paths in
  emit (Call input_path output_path) ;;;
  try_except
    (transform_suite E input_path output_path ;;; ret (PyBool true))
    (fun e => emit (PrintError input_path e) ;;; ret (PyBool false)).

(** [multiprocessing.Pool(processes=count)]: the constructor refuses a count
    below one. *)
Definition Pool (processes : Z) : M E Z :=
  if processes <? 1 then
    raise (mk_exn ValueError "Number of processes must be at least 1")
  else ret processes.

(** [pool.map(f, tasks)]: the results, in the order of [tasks]. *)
Definition pool_map (pool : Z) (f : path * path -> M E pyval)
    (tasks : list (path * path)) : M E (list pyval) :=
  mapM f tasks.

(** The body of [for count in worker_counts]. *)
Definition run_pool (baseline_time : float) (tasks : list (path * path))
    (count : Z) : M E row :=
  start_time <- clock ;;
  pool <- Pool count ;;
  results <- pool_map pool process_image tasks ;;
  end_time <- clock ;;
  let total_time := (end_time - start_time)%float in
  speedup <- lift (truediv baseline_time total_time) ;;
  ret (count, total_time, speedup).

(** [main()] from the baseline on, for any [worker_counts]: the table that
    section 4 prints. *)
Definition run_suite (worker_counts : list Z) (tasks : list (path * path))
    : M E (list row) :=
  start_seq <- clock ;;
  results_seq <- mapM process_image tasks ;;
  end_seq <- clock ;;
  let baseline_time := (end_seq - start_seq)%float in
  let results_table := [(1, baseline_time, 1%float)] in
  rows <- mapM (run_pool baseline_time tasks) worker_counts ;;
  ret (results_table ++ rows).

Definition main_cfg (worker_counts : list Z) : M E (list row) :=
  tasks <- observe (walk_tasks E OUTPUT_DIR) ;;
  run_suite worker_counts tasks.

(** [main()], with its [worker_counts = [2, 4, 8]]. *)
Definition main : M E (list row) := main_cfg [2; 4; 8].

End Parallel.
End Parallel.

(** ** distributed_sim.py *)

Module Distributed.

(** [(a, b, c) < (a', b', c')] on tuples: the first components that differ
    decide. *)
Definition tuple_lt (x y : node_result) : bool :=
  let '(a, b, c) := x in
  let '(a', b', c') := y in
  if negb (a =? a') then a <? a'
  else if negb (b =? b') then b <? b'
  else PrimFloat.ltb c c'.

Fixpoint insert (x : node_result) (l : list node_result) : list node_result :=
  match l with
  | [] => [x]
  | y :: l' => if tuple_lt y x then y :: insert x l' else x :: l
  end.

(** [node_times.sort()]: a stable sort that compares with [<] only. *)
Fixpoint sort (l : list node_result) : list node_result :=
  match l with
  | [] => []
  | x :: l' => insert x (sort l')
  end.

(** Section 2 of [main()]: [images_per_node] and the two slices. *)
Definition node_tasks {A : Type} (NUM_NODES : Z) (all_image_paths : list A)
    : pyresult (list (list A)) :=
  let total_images := Z.of_nat (List.length all_image_paths) in
  match ceil_div total_images NUM_NODES with
  | Raise e => Raise e
  | Ok images_per_node =>
      Ok [ slice all_image_paths (Some 0) (Some images_per_node);
           slice all_image_paths (Some images_per_node) None ]
  end.

Section Distributed.
Variable E : Externals.

Definition OUTPUT_DIR_NODE1 : path :=
  join (SCRIPT_DIR E) ["output_dist_node1"%string].
Definition OUTPUT_DIR_NODE2 : path :=
  join (SCRIPT_DIR E) ["output_dist_node2"%string].
Definition NUM_NODES : Z := 2.
Definition SEQUENTIAL_TIME : float := 18.24%float.

(** What [main()] prints: the sorted node lines, the total time, the
    efficiency. *)
Definition report : Type := (list node_result * float * float)%type.

Definition process_image (input_path output_path : path) : M E pyval :=
  emit (Call input_path output_path) ;;;
  try_except
    (transform_suite E input_path output_path)
    (fun e => emit (PrintError input_path e)) ;;;
  ret PyNone.

(** The output path that [node_worker] builds for one input. *)
Definition node_output_path (output_dir input_path : path) : path :=
  let relative_path := relpath input_path (SOURCE_DIR E) in
  join output_dir relative_path.

Definition node_worker (node_id : Z) (image_list : list path)
    (output_dir : path) : M E unit :=
  start_time <- clock ;;
  forM_ (fun input_path =>
           process_image input_path (node_output_path output_dir input_path))
        image_list ;;;
  end_time <- clock ;;
  let time_taken := (end_time - start_time)%float in
  queue_put (node_id, Z.of_nat (List.length image_list), time_taken).

(** [main()] with the configuration line [NUM_NODES = k]. A started process
    runs its [node_worker] to the end; the order of the queue is the world's. *)
Definition main_cfg (k : Z) : M E report :=
  seq_start <- clock ;;
  all_image_paths <- observe (walk_image_paths E) ;;
  tasks <- lift (node_tasks k all_image_paths) ;;
  let node_outputs := [OUTPUT_DIR_NODE1; OUTPUT_DIR_NODE2] in
  dist_start_time <- clock ;;
  forM_ (fun i =>
           let node_id := i + 1 in
           image_list <- lift (index tasks i) ;;
           output_dir <- lift (index node_outputs i) ;;
           node_worker node_id image_list output_dir)
        (range k) ;;;
  dist_end_time <- clock ;;
  let total_distributed_time := (dist_end_time - dist_start_time)%float in
  node_times <- queue_drain ;;
  let node_times := sort node_times in
  efficiency <- lift (truediv SEQUENTIAL_TIME total_distributed_time) ;;
  ret (node_times, total_distributed_time, efficiency).

Definition main : M E report := main_cfg NUM_NODES.

End Distributed.
End Distributed.

(** ** Reading the log and the results *)

Module Log.

(** The [(input_path, output_path)] of the calls of [process_image]. *)
Definition calls (evs : list event) : list (path * path) :=
  flat_map (fun ev => match ev with Call i o => [(i, o)] | _ => [] end) evs.

(** The output paths that were saved. *)
Definition saves (evs : list event) : list path :=
  flat_map (fun ev => match ev with Saved o => [o] | _ => [] end) evs.

(** The input paths of the error lines that were printed. *)
Definition errors (evs : list event) : list path :=
  flat_map (fun ev => match ev with PrintError i _ => [i] | _ => [] end) evs.

Definition is_success (r : pyval) : bool :=
  match r with PyBool true => true | _ => false end.

Definition is_failure (r : pyval) : bool :=
  match r with PyBool false => true | _ => false end.



(** The inputs of the tasks whose result is [False]. *)
Definition failed_inputs (tasks : list (path * path)) (results : list pyval)
    : list path :=
  map (fun tr => fst (fst tr))
      (filter (fun tr => is_failure (snd tr)) (combine tasks results)).

(** The outputs of the tasks whose result is [True]. *)
Definition saved_outputs (tasks : list (path * path)) (results : list pyval)
    : list path :=
  map (fun tr => snd (fst tr))
      (filter (fun tr => is_success (snd tr)) (combine tasks results)).

Definition row_workers (r : Z * float * float) : Z := fst (fst r).
Definition row_elapsed (r : Z * float * float) : float := snd (fst r).
Definition row_speedup (r : Z * float * float) : float := snd r.

Definition node_id_of (r : node_result) : Z := fst (fst r).

(** What a statement did to the state: it appended [evs] to the log and left
    the queue alone. *)
Definition logged {E : Externals} (s s' : state E) (evs : list event) : Prop :=
  st_log s' = st_log s ++ evs /\ st_queue s' = st_queue s.

(** [m] appends [evs] to the log when it returns and nothing when it
    raises. *)
Definition emits {E : Externals} {A : Type} (m : M E A) (evs : list event)
    : Prop :=
  forall s r s', m s = (r, s') ->
    match r with
    | Ok _ => logged s s' evs
    | Raise _ => logged s s' []
    end.

(** The events of one call of [process_image] on [(i, o)]: the call, then
    the save when it succeeded ([b]) or the error line when it failed. *)
Definition unit_events (i o : path) (b : bool) (evs : list event) : Prop :=
  calls evs = [(i, o)] /\
  saves evs = (if b then [o] else []) /\
  errors evs = (if b then [] else [i]).

(** The wall time of one pass of parallel_process.py over [tasks] that starts
    in the state [s]: the clock is read, every task is processed, the clock
    is read again. *)
Definition elapsed_of_pass (E : Externals) (tasks : list (path * path))
    (s : state E) : float :=
  let s0 := snd (clock s) in
  let s1 := snd (mapM (Parallel.process_image E) tasks s0) in
  (fst (perf_counter E (st_world s1)) - fst (perf_counter E (st_world s)))%float.

(** A row whose elapsed time was measured on a pass over [tasks] and whose
    speedup is [baseline / elapsed]. *)
Definition row_of_pass (E : Externals) (tasks : list (path * path))
    (baseline : float) (r : Z * float * float) : Prop :=
  (exists s : state E, row_elapsed r = elapsed_of_pass E tasks s) /\
  truediv baseline (row_elapsed r) = Ok (row_speedup r).

(** The exception comes from the pool constructor or from a division. *)
Definition pool_or_division_error (e : pyexn) : Prop :=
  exn_class e = ValueError \/ exn_class e = ZeroDivisionError.

(** The calls of [process_image] that a node makes for its [image_list]. *)
Definition node_plan (E : Externals) (output_dir : path)
    (image_list : list path) : list (path * path) :=
  map (fun input_path =>
         (input_path, Distributed.node_output_path E output_dir input_path))
      image_list.

(** How many node processes [main()] starts when [NUM_NODES = k]: it has two
    task lists. *)
Definition launched_nodes (k : Z) : nat := Nat.min (Z.to_nat k) 2.

(** The launch loop of [main()] of distributed_sim.py. *)
Definition launch_loop (E : Externals) (tasks : list (list path)) (k : Z)
    : M E unit :=
  let node_outputs :=
    [Distributed.OUTPUT_DIR_NODE1 E; Distributed.OUTPUT_DIR_NODE2 E] in
  forM_ (fun i =>
           let node_id := i + 1 in
           image_list <- lift (index tasks i) ;;
           output_dir <- lift (index node_outputs i) ;;
           Distributed.node_worker E node_id image_list output_dir)
        (range k).

(** [p] lies strictly below the directory [dir]. *)
Definition under (dir p : path) : Prop :=
  exists rel : path, rel <> [] /\ p = dir ++ rel.

(** What [os.walk(top)] promises: every root it yields is [top] or below. *)
Definition walk_below_top (E : Externals) (w : world E) : Prop :=
  forall root files,
    In (root, files) (os_walk E (SOURCE_DIR E) w) ->
    exists sub : path, root = SOURCE_DIR E ++ sub.

(** Ascending by node id. *)
Definition id_le (x y : node_result) : Prop := node_id_of x <= node_id_of y.



(** Every call of Pillow and [os] other than the loading of a font returns
    normally. *)
Definition other_calls_succeed (E : Externals) : Prop :=
  (forall p w, exists img w', Image_open E p w = (Ok img, w')) /\
  (forall img size w, exists img' w', img_resize E img size w = (Ok img', w')) /\
  (forall img w, exists img' w', img_convert_RGB E img w = (Ok img', w')) /\
  (forall img w, exists draw w', ImageDraw_Draw E img w = (Ok draw, w')) /\
  (forall draw pos text fnt fill w,
      exists img' w', draw_text E draw pos text fnt fill w = (Ok img', w')) /\
  (forall p w, exists w', os_makedirs E p w = (Ok tt, w')) /\
  (forall img p w, exists w', img_save E img p w = (Ok tt, w')).

End Log.
Export Log.

(** ** The partitioner, in the words of the specification *)

Module PartitionSpec.

(** [ceil(N / k)] for a positive [k]. *)
Definition spec_chunk_size (N k : Z) : Z := (N + k - 1) / k.

(** The elements at the positions [[a, b)]. *)
Definition interval {A : Type} (l : list A) (a b : Z) : list A :=
  firstn (Z.to_nat (b - a)) (skipn (Z.to_nat a) l).

(** Partition [i]: the elements [[i*chunk_size, min(N, (i+1)*chunk_size))]. *)
Definition spec_partition {A : Type} (l : list A) (k i : Z) : list A :=
  let N := Z.of_nat (List.length l) in
  let chunk_size := spec_chunk_size N k in
  interval l (i * chunk_size) (Z.min N ((i + 1) * chunk_size)).

End PartitionSpec.
Export PartitionSpec.

(** ** A small concrete world

    A directory listing and a clock given by its readings. Opening a file
    named [bad.jpg] fails, [arial.ttf] is missing, and the node results reach
    the master in reverse order. *)

Module Demo.

Record demo_world : Type := mk_demo {
  readings : list float;
  listing : list (path * list string)
}.

Definition demo_perf_counter (w : demo_world) : float * demo_world :=
  match readings w with
  | [] => (0%float, w)
  | t :: ts => (t, mk_demo ts (listing w))
  end.

Definition demo_open (p : path) (w : demo_world)
    : pyresult unit * demo_world :=
  if String.eqb (last p EmptyString) "bad.jpg" then
    (Raise (mk_exn OSError "cannot identify image file"), w)
  else (Ok tt, w).

Definition demo : Externals := {|
  world := demo_world;
  image := unit;
  font := unit;
  SCRIPT_DIR := ["lab"%string];
  perf_counter := demo_perf_counter;
  os_walk := fun top w =>
    map (fun '(sub, files) => (top ++ sub, files)) (listing w);
  Image_open := demo_open;
  img_resize := fun img _ w => (Ok img, w);
  img_mode_is_RGB := fun _ => false;
  img_convert_RGB := fun img w => (Ok img, w);
  ImageDraw_Draw := fun img w => (Ok img, w);
  ImageFont_truetype := fun _ _ w =>
    (Raise (mk_exn OSError "cannot open resource"), w);
  ImageFont_load_default := fun w => (Ok tt, w);
  draw_text := fun img _ _ _ _ w => (Ok img, w);
  os_makedirs := fun _ w => (Ok tt, w);
  img_save := fun _ _ w => (Ok tt, w);
  queue_order := fun _ l => rev l
|}.

(** The same world, in which every file opens. *)
Definition good : Externals := {|
  world := demo_world;
  image := unit;
  font := unit;
  SCRIPT_DIR := ["lab"%string];
  perf_counter := demo_perf_counter;
  os_walk := fun top w =>
    map (fun '(sub, files) => (top ++ sub, files)) (listing w);
  Image_open := fun _ w => (Ok tt, w);
  img_resize := fun img _ w => (Ok img, w);
  img_mode_is_RGB := fun _ => false;
  img_convert_RGB := fun img w => (Ok img, w);
  ImageDraw_Draw := fun img w => (Ok img, w);
  ImageFont_truetype := fun _ _ w =>
    (Raise (mk_exn OSError "cannot open resource"), w);
  ImageFont_load_default := fun w => (Ok tt, w);
  draw_text := fun img _ _ _ _ w => (Ok img, w);
  os_makedirs := fun _ w => (Ok tt, w);
  img_save := fun _ _ w => (Ok tt, w);
  queue_order := fun _ l => rev l
|}.

(** The state a script starts in. *)
Definition start (ts : list float) (ls : list (path * list string))
    : state demo :=
  mk_state demo (mk_demo ts ls) [] [].

(** One good and one bad image at the top, a text file, a good image in
    [cats]. *)
Definition small_listing : list (path * list string) :=
  [ ([], ["a.png"; "bad.jpg"; "notes.txt"]%string);
    (["cats"%string], ["c.JPG"%string]) ].

End Demo.

(** ** Slices and the ceiling *)

Section SliceFacts.
Context {A : Type}.
Implicit Type l : list A.

Lemma clamp_index_range (n i : Z) :
  0 <= n -> 0 <= clamp_index n i <= n.
Proof. unfold clamp_index. destruct (i <? 0) eqn:Hi; lia. Qed.

Lemma clamp_index_inside (n i : Z) :
  0 <= i -> clamp_index n i = Z.min i n.
Proof.
  intros Hi. unfold clamp_index.
  destruct (i <? 0) eqn:H; [apply Z.ltb_lt in H; lia | reflexivity].
Qed.

Lemma slice_head l (c : Z) :
  slice l (Some 0) (Some c) =
  firstn (Z.to_nat (clamp_index (Z.of_nat (List.length l)) c)) l.
Proof.
  unfold slice. rewrite (clamp_index_inside _ 0 (Z.le_refl 0)).
  rewrite Z.min_l by lia. rewrite Z.sub_0_r. reflexivity.
Qed.

Lemma slice_tail l (c : Z) :
  slice l (Some c) None =
  skipn (Z.to_nat (clamp_index (Z.of_nat (List.length l)) c)) l.
Proof.
  unfold slice.
  pose proof (clamp_index_range (Z.of_nat (List.length l)) c
                (Nat2Z.is_nonneg _)) as Hr.
  set (m := clamp_index _ c) in *.
  apply firstn_all2. rewrite length_skipn. lia.
Qed.

(** [l[0:c] + l[c:] == l], whatever [c] is. *)
Lemma slice_split l (c : Z) :
  slice l (Some 0) (Some c) ++ slice l (Some c) None = l.
Proof. rewrite slice_head, slice_tail. apply firstn_skipn. Qed.

Lemma interval_head l (b : Z) :
  interval l 0 b = firstn (Z.to_nat b) l.
Proof. unfold interval. rewrite Z.sub_0_r. reflexivity. Qed.

Lemma interval_tail l (a : Z) :
  0 <= a <= Z.of_nat (List.length l) ->
  interval l a (Z.of_nat (List.length l)) = skipn (Z.to_nat a) l.
Proof.
  intros Ha. unfold interval. apply firstn_all2. rewrite length_skipn. lia.
Qed.

End SliceFacts.

Lemma ceil_div_pos (N k : Z) :
  1 <= k -> ceil_div N k = Ok (spec_chunk_size N k).
Proof.
  intros Hk. unfold ceil_div, spec_chunk_size.
  destruct (k =? 0) eqn:E; [apply Z.eqb_eq in E; lia |].
  f_equal. Z.div_mod_to_equations. nia.
Qed.

Lemma spec_chunk_size_bounds (N k : Z) :
  0 <= N -> 1 <= k ->
  0 <= spec_chunk_size N k /\ N <= k * spec_chunk_size N k.
Proof.
  intros HN Hk. unfold spec_chunk_size. Z.div_mod_to_equations. nia.
Qed.


Lemma NoDup_app_disjoint {A : Type} (l1 l2 : list A) (a : A) :
  NoDup (l1 ++ l2) -> In a l1 -> ~ In a l2.
Proof.
  induction l1 as [| b l1 IH]; simpl; intros Hnd Hin; [contradiction |].
  inversion Hnd as [| ? ? Hb Hnd']; subst.
  destruct Hin as [-> | Hin].
  - intros Ha. apply Hb, in_or_app. now right.
  - now apply IH.
Qed.

(** ** The partitioner of distributed_sim.py *)

Section Partitioner.
Context {A : Type}.
Implicit Type l : list A.

(** With a degree of at least one, the two slices are [[0, m)] and [[m, N)]
    for [m = min(N, ceil(N / k))]. *)
Lemma node_tasks_slices l (k : Z) :
  1 <= k ->
  let N := Z.of_nat (List.length l) in
  let m := Z.min N (spec_chunk_size N k) in
  Distributed.node_tasks k l = Ok [interval l 0 m; interval l m N].
Proof.
  intros Hk N m. unfold Distributed.node_tasks.
  rewrite (ceil_div_pos _ _ Hk).
  destruct (spec_chunk_size_bounds N k) as [Hc _];
    [subst N; lia | exact Hk |].
  rewrite slice_head, slice_tail.
  rewrite (clamp_index_inside _ _ Hc), Z.min_comm.
  subst m N. rewrite interval_head, interval_tail by lia.
  reflexivity.
Qed.

(** Whatever the degree, the two slices put together are the batch. *)
Lemma node_tasks_concat l (k : Z) (parts : list (list A)) :
  Distributed.node_tasks k l = Ok parts -> List.concat parts = l.
Proof.
  unfold Distributed.node_tasks.
  destruct (ceil_div _ k) as [c | e]; [| discriminate].
  intros [= <-]. simpl. rewrite app_nil_r. apply slice_split.
Qed.

End Partitioner.

(** C2. For a non-empty batch and a degree [k >= 1] the partitioner returns
    partitions whose concatenation, in node order, is the batch itself, whose
    sizes sum to the size of the batch, and such that every unit of a batch of
    distinct units lies in exactly one partition. *)
Theorem node_tasks_disjoint_cover (A : Type) (l : list A) (k : Z) :
  l <> [] -> 1 <= k ->
  exists parts : list (list A),
    Distributed.node_tasks k l = Ok parts /\
    List.concat parts = l /\
    list_sum (map (@List.length A) parts) = List.length l /\
    (NoDup l ->
     forall x, In x l ->
       exists j, (j < List.length parts)%nat /\ In x (nth j parts []) /\
         forall j', (j' < List.length parts)%nat ->
                    In x (nth j' parts []) -> j' = j).
Proof.
  intros _ Hk.
  pose proof (node_tasks_slices l k Hk) as Hs. cbv zeta in Hs.
  set (p1 := interval l 0 _) in Hs. set (p2 := interval l _ _) in Hs.
  pose proof (node_tasks_concat l k _ Hs) as Hc.
  simpl in Hc. rewrite app_nil_r in Hc.
  exists [p1; p2]. split; [exact Hs |]. split; [simpl; now rewrite app_nil_r |].
  split.
  - simpl. rewrite Nat.add_0_r, <- length_app, Hc. reflexivity.
  - intros Hnd x Hx. rewrite <- Hc in Hnd, Hx.
    apply in_app_or in Hx. destruct Hx as [H1 | H2].
    + exists 0%nat. simpl. repeat split; [lia | exact H1 |].
      intros [| [| j']] Hj Hin; simpl in *; try lia.
      exfalso. exact (NoDup_app_disjoint _ _ _ Hnd H1 Hin).
    + exists 1%nat. simpl. repeat split; [lia | exact H2 |].
      intros [| [| j']] Hj Hin; simpl in *; try lia.
      exfalso. exact (NoDup_app_disjoint _ _ _ Hnd Hin H2).
Qed.

(** Five units on two nodes. *)
Lemma node_tasks_disjoint_cover_witness :
  exists parts : list (list nat),
    Distributed.node_tasks 2 [10; 11; 12; 13; 14]%nat = Ok parts /\
    List.concat parts = [10; 11; 12; 13; 14]%nat.
Proof.
  destruct (@node_tasks_disjoint_cover nat [10; 11; 12; 13; 14]%nat 2)
    as [parts [H1 [H2 _]]]; [discriminate | lia |].
  exists parts. split; assumption.
Defined.

(** ** The log is additive *)

Lemma calls_app (l1 l2 : list event) : calls (l1 ++ l2) = calls l1 ++ calls l2.
Proof. apply flat_map_app. Qed.

Lemma saves_app (l1 l2 : list event) : saves (l1 ++ l2) = saves l1 ++ saves l2.
Proof. apply flat_map_app. Qed.

Lemma errors_app (l1 l2 : list event) :
  errors (l1 ++ l2) = errors l1 ++ errors l2.
Proof. apply flat_map_app. Qed.

(** ** One call of [process_image] *)

Lemma logged_refl {E : Externals} (s : state E) : logged s s [].
Proof. split; [now rewrite app_nil_r | reflexivity]. Qed.

Lemma logged_trans {E : Externals} {s1 s2 s3 : state E} {e1 e2 : list event} :
  logged s1 s2 e1 -> logged s2 s3 e2 -> logged s1 s3 (e1 ++ e2).
Proof.
  intros [H1 Q1] [H2 Q2]. split.
  - rewrite H2, H1. now rewrite app_assoc.
  - congruence.
Qed.

Section ProcessImage.
Variable E : Externals.

Lemma emits_call {A : Type} (f : world E -> pyresult A * world E) :
  emits (call f) [].
Proof.
  intros s r s'. unfold call. destruct (f (st_world s)) as [r0 w].
  intros [= <- <-].
  destruct r0; (split; simpl; [now rewrite app_nil_r | reflexivity]).
Qed.

Lemma emits_ret {A : Type} (a : A) : emits (E := E) (ret a) [].
Proof. intros s r s' [= <- <-]. apply logged_refl. Qed.

Lemma emits_emit (ev : event) : emits (E := E) (emit ev) [ev].
Proof. intros s r s' [= <- <-]. split; reflexivity. Qed.

Lemma emits_bind {A B : Type} (m : M E A) (k : A -> M E B)
    (evs : list event) :
  emits m [] -> (forall a, emits (k a) evs) -> emits (bind m k) evs.
Proof.
  intros Hm Hk s r s'. unfold bind.
  destruct (m s) as [[a | e] s1] eqn:Em; intros H.
  - specialize (Hm _ _ _ Em). simpl in Hm.
    specialize (Hk a _ _ _ H).
    destruct r; exact (logged_trans Hm Hk).
  - injection H as <- <-. exact (Hm _ _ _ Em).
Qed.

Lemma emits_try_except_IOError {A : Type} (m h : M E A) :
  emits m [] -> emits h [] -> emits (try_except_IOError m h) [].
Proof.
  intros Hm Hh s r s'. unfold try_except_IOError.
  destruct (m s) as [[a | e] s1] eqn:Em; intros H.
  - injection H as <- <-. exact (Hm _ _ _ Em).
  - specialize (Hm _ _ _ Em). simpl in Hm.
    destruct (is_OSError e).
    + specialize (Hh _ _ _ H). destruct r; exact (logged_trans Hm Hh).
    + injection H as <- <-. exact Hm.
Qed.

(** The suite either runs to its end, logging one [Saved], or raises and
    logs nothing. *)
Lemma transform_suite_emits (input_path output_path : path) :
  emits (transform_suite E input_path output_path) [Saved output_path].
Proof.
  unfold transform_suite.
  repeat first
    [ apply emits_emit
    | apply emits_bind; [| intros ?]
    | apply emits_call
    | apply emits_ret
    | apply emits_try_except_IOError
    | match goal with |- emits (if ?b then _ else _) _ => destruct b end ].
Qed.

End ProcessImage.

Section Calls.
Variable E : Externals.

(** [try: suite; except Exception as e: print(...)], after the call was
    logged: the outcome of the suite decides [b]. *)
Lemma guarded_suite_spec {A : Type} (i o : path) (yes no : A) (s : state E) :
  exists (b : bool) (s' : state E) (evs : list event),
    (emit (Call i o) ;;;
     try_except (transform_suite E i o ;;; ret yes)
                (fun e : pyexn => emit (PrintError i e) ;;; ret no)) s
      = (Ok (if b then yes else no), s') /\
    logged s s' evs /\ unit_events i o b evs /\
    (b = true <->
     exists s1, transform_suite E i o (snd (emit (Call i o) s)) = (Ok tt, s1)).
Proof.
  unfold bind at 1. cbn [emit]. set (s0 := mk_state E _ _ _).
  assert (H0 : logged s s0 [Call i o]) by (split; reflexivity).
  unfold try_except, bind.
  destruct (transform_suite E i o s0) as [[[] | e] s1] eqn:Hs;
    pose proof (transform_suite_emits E i o _ _ _ Hs) as Hl; simpl in Hl.
  - exists true, s1, ([Call i o] ++ [Saved o]). cbn [ret].
    split; [reflexivity |]. split; [exact (logged_trans H0 Hl) |].
    split; [repeat split |]. split; [intros _; now exists s1 | intros _; reflexivity].
  - exists false. cbn [emit ret]. do 2 eexists.
    split; [reflexivity |].
    split; [| split; [| split; [discriminate |]]].
    3: { intros [s2 H2].
         change (transform_suite E i o s0 = (Ok tt, s2)) in H2. congruence. }
    + eapply logged_trans; [exact (logged_trans H0 Hl) |].
      split; reflexivity.
    + repeat split.
Qed.

Lemma parallel_process_image_spec (i o : path) (s : state E) :
  exists b s' evs,
    Parallel.process_image E (i, o) s = (Ok (PyBool b), s') /\
    logged s s' evs /\ unit_events i o b evs /\
    (b = true <->
     exists s1, transform_suite E i o (snd (emit (Call i o) s)) = (Ok tt, s1)).
Proof.
  destruct (guarded_suite_spec i o (PyBool true) (PyBool false) s)
    as [b [s' [evs [H1 H2]]]].
  exists b, s', evs. split; [| exact H2].
  unfold Parallel.process_image. rewrite H1. now destruct b.
Qed.

End Calls.

Section Loops.
Variable E : Externals.

Lemma process_image_none_spec (i o : path) (s : state E) :
  exists (b : bool) (s' : state E) (evs : list event),
    (emit (Call i o) ;;;
     try_except (transform_suite E i o)
                (fun e : pyexn => emit (PrintError i e)) ;;;
     ret PyNone) s = (Ok PyNone, s') /\
    logged s s' evs /\ unit_events i o b evs /\
    (b = true <->
     exists s1, transform_suite E i o (snd (emit (Call i o) s)) = (Ok tt, s1)).
Proof.
  destruct (guarded_suite_spec E i o PyNone PyNone s)
    as [b [s' [evs [H1 H2]]]].
  exists b, s', evs. split; [| exact H2].
  assert (Hb : (if b then PyNone else PyNone) = PyNone) by now destruct b.
  rewrite Hb in H1. rewrite <- H1. unfold bind, try_except, emit, ret.
  destruct (transform_suite E i o _) as [[[] | e] s1]; reflexivity.
Qed.


Lemma distributed_process_image_spec (i o : path) (s : state E) :
  exists (b : bool) (s' : state E) (evs : list event),
    Distributed.process_image E i o s = (Ok PyNone, s') /\
    logged s s' evs /\ unit_events i o b evs /\
    (b = true <->
     exists s1, transform_suite E i o (snd (emit (Call i o) s)) = (Ok tt, s1)).
Proof. exact (process_image_none_spec i o s). Qed.

(** A loop over calls that cannot raise: one call per element, in order, and
    one save or one error line for each. *)
Lemma forM_calls {A : Type} (f : A -> M E pyval) (g : A -> path * path) :
  (forall a s, exists (r : pyval) (b : bool) s' evs,
      f a s = (Ok r, s') /\ logged s s' evs /\
      unit_events (fst (g a)) (snd (g a)) b evs) ->
  forall l s, exists s' evs,
    forM_ f l s = (Ok tt, s') /\ logged s s' evs /\
    calls evs = map g l /\
    (List.length (saves evs) + List.length (errors evs) = List.length l)%nat.
Proof.
  intros Hf. induction l as [| a l IH]; intros s.
  - exists s, []. repeat split. simpl. now rewrite app_nil_r.
  - destruct (Hf a s) as [r [b [s1 [ev1 [H1 [L1 [C1 [S1 R1]]]]]]]].
    destruct (IH s1) as [s2 [ev2 [H2 [L2 [C2 N2]]]]].
    exists s2, (ev1 ++ ev2). simpl. unfold bind at 1. rewrite H1.
    split; [exact H2 |]. split; [exact (logged_trans L1 L2) |].
    rewrite calls_app, saves_app, errors_app, C1, C2, S1, R1.
    split.
    + simpl. now destruct (g a).
    + rewrite !length_app. destruct b; simpl; lia.
Qed.

(** [[process_image(task) for task in tasks]] and [pool.map]: a result for
    every task, [False] exactly where the error line was printed. *)
Lemma parallel_map_spec (tasks : list (path * path)) (s : state E) :
  exists results s' evs,
    mapM (Parallel.process_image E) tasks s = (Ok results, s') /\
    logged s s' evs /\
    calls evs = tasks /\
    Forall2 (fun _ r => exists b : bool, r = PyBool b) tasks results /\
    errors evs = failed_inputs tasks results /\
    saves evs = saved_outputs tasks results.
Proof.
  revert s. induction tasks as [| [i o] tasks IH]; intros s.
  - exists [], s, []. repeat split; try constructor. simpl.
    now rewrite app_nil_r.
  - destruct (parallel_process_image_spec E i o s)
      as [b [s1 [ev1 [H1 [L1 [[C1 [S1 R1]] _]]]]]].
    destruct (IH s1) as [rs [s2 [ev2 [H2 [L2 [C2 [F2 [R2 S2]]]]]]]].
    exists (PyBool b :: rs), s2, (ev1 ++ ev2).
    cbn [mapM]. unfold bind at 1. rewrite H1. unfold bind at 1. rewrite H2.
    split; [reflexivity |]. split; [exact (logged_trans L1 L2) |].
    rewrite calls_app, saves_app, errors_app, C1, C2, S1, R1, R2, S2.
    split; [reflexivity |].
    split; [constructor; [now exists b | exact F2] |].
    unfold failed_inputs, saved_outputs. destruct b; simpl; split; reflexivity.
Qed.

End Loops.

(** ** The tally of a list of results *)


(** ** process_image and the loops around it *)







(** ** The suite of parallel_process.py *)

Lemma events_length (evs : list event) :
  List.length evs
  = (List.length (calls evs) + List.length (saves evs)
     + List.length (errors evs))%nat.
Proof.
  induction evs as [| ev evs IH]; [reflexivity |].
  change (ev :: evs) with ([ev] ++ evs).
  rewrite calls_app, saves_app, errors_app, !length_app, IH.
  destruct ev; simpl; lia.
Qed.

Section Suite.
Variable E : Externals.
Variable tasks : list (path * path).

Lemma parallel_map_empty (s s' : state E) (results : list pyval)
    (evs : list event) :
  tasks = [] ->
  calls evs = tasks ->
  errors evs = failed_inputs tasks results ->
  saves evs = saved_outputs tasks results ->
  evs = [].
Proof.
  intros -> C R S. apply length_zero_iff_nil.
  rewrite events_length, C, R, S. reflexivity.
Qed.

(** One turn of [for count in worker_counts]. *)
Lemma run_pool_spec (baseline_time : float) (count : Z) (s : state E) :
  exists evs r s',
    Parallel.run_pool E baseline_time tasks count s = (r, s') /\
    logged s s' evs /\ (tasks = [] -> evs = []) /\
    ((count < 1 /\ evs = [] /\
      exists e, exn_class e = ValueError /\ r = Raise e) \/
     (1 <= count /\ calls evs = tasks /\
      let t := elapsed_of_pass E tasks s in
      r = match truediv baseline_time t with
          | Ok speedup => Ok (count, t, speedup)
          | Raise e => Raise e
          end)).
Proof.
  unfold Parallel.run_pool, elapsed_of_pass.
  unfold bind at 1. unfold clock. cbn [snd].
  destruct (perf_counter E (st_world s)) as [t0 w0] eqn:E0. cbn [fst snd].
  set (s0 := mk_state E w0 _ _).
  assert (L0 : logged s s0 []) by (split; simpl; now rewrite ?app_nil_r).
  unfold bind at 1. unfold Parallel.Pool.
  destruct (count <? 1) eqn:Hc.
  - apply Z.ltb_lt in Hc. exists []. do 2 eexists.
    split; [unfold raise; reflexivity |]. split; [exact L0 |].
    split; [reflexivity |]. left. split; [exact Hc |]. split; [reflexivity |].
    eexists. split; [| reflexivity]. reflexivity.
  - apply Z.ltb_ge in Hc. cbn [ret].
    destruct (parallel_map_spec E tasks s0)
      as [results [s1 [evs [H [L [C [F [R S]]]]]]]].
    unfold bind at 1. unfold Parallel.pool_map. rewrite H. cbn [fst snd].
    unfold bind at 1.
    destruct (perf_counter E (st_world s1)) as [t1 w1] eqn:E1. cbn [fst snd].
    set (s2 := mk_state E w1 _ _).
    assert (L2 : logged s1 s2 []) by (split; simpl; now rewrite ?app_nil_r).
    pose proof (logged_trans L0 (logged_trans L L2)) as L'.
    simpl in L'. rewrite app_nil_r in L'.
    unfold bind, lift, ret. cbv zeta.
    destruct (truediv baseline_time (t1 - t0)) eqn:Hd;
      (exists evs; do 2 eexists; split; [reflexivity |];
       split; [exact L' |];
       split; [intros Ht;
               exact (parallel_map_empty s0 s1 results evs Ht C R S) |];
       right; split; [lia |]; split; [exact C | reflexivity]).
Qed.

(** The whole loop over [worker_counts]. *)
Lemma pool_rows_spec (baseline_time : float) (worker_counts : list Z) :
  forall s : state E,
  exists evs r s',
    mapM (Parallel.run_pool E baseline_time tasks) worker_counts s = (r, s') /\
    logged s s' evs /\ (tasks = [] -> evs = []) /\
    match r with
    | Ok rows =>
        map row_workers rows = worker_counts /\
        Forall (fun count => 1 <= count) worker_counts /\
        Forall (row_of_pass E tasks baseline_time) rows
    | Raise e => pool_or_division_error e
    end.
Proof.
  induction worker_counts as [| count wc IH]; intros s.
  - exists [], (Ok []), s. split; [reflexivity |].
    split; [apply logged_refl |]. split; [reflexivity |].
    repeat split; constructor.
  - destruct (run_pool_spec baseline_time count s)
      as [ev1 [r1 [s1 [H1 [L1 [N1 D1]]]]]].
    cbn [mapM]. unfold bind at 1. rewrite H1.
    destruct D1 as [[Hc [_ [e [He ->]]]] | [Hc [_ Hr]]].
    + exists ev1, (Raise e), s1. split; [reflexivity |].
      split; [exact L1 |]. split; [exact N1 |]. now left.
    + cbv zeta in Hr.
      destruct (truediv baseline_time (elapsed_of_pass E tasks s))
        as [speedup | e] eqn:Hd; subst r1.
      2: { exists ev1, (Raise e), s1. split; [reflexivity |].
           split; [exact L1 |]. split; [exact N1 |]. right.
           unfold truediv in Hd.
           destruct (PrimFloat.eqb _ _); [| discriminate].
           now injection Hd as <-. }
      destruct (IH s1) as [ev2 [r2 [s2 [H2 [L2 [N2 D2]]]]]].
      unfold bind at 1. rewrite H2.
      exists (ev1 ++ ev2).
      assert (N : tasks = [] -> ev1 ++ ev2 = []).
      { intros Ht. now rewrite (N1 Ht), (N2 Ht). }
      destruct r2 as [rows | e].
      * do 2 eexists. split; [reflexivity |].
        split; [exact (logged_trans L1 L2) |]. split; [exact N |].
        destruct D2 as [W [P R]].
        split; [simpl; now rewrite W |].
        split; [now constructor |].
        constructor; [| exact R]. split; [now exists s | exact Hd].
      * do 2 eexists. split; [reflexivity |].
        split; [exact (logged_trans L1 L2) |]. split; [exact N | exact D2].
Qed.

(** [main()] of parallel_process.py from the baseline on. *)
Lemma run_suite_spec (worker_counts : list Z) (s : state E) :
  exists evs r s',
    Parallel.run_suite E worker_counts tasks s = (r, s') /\
    logged s s' evs /\ (tasks = [] -> evs = []) /\
    (exists more, calls evs = tasks ++ more) /\
    match r with
    | Ok table =>
        exists rows,
          table = (1, elapsed_of_pass E tasks s, 1%float) :: rows /\
          map row_workers rows = worker_counts /\
          Forall (fun count => 1 <= count) worker_counts /\
          Forall (row_of_pass E tasks (elapsed_of_pass E tasks s)) rows
    | Raise e => pool_or_division_error e
    end.
Proof.
  unfold Parallel.run_suite, elapsed_of_pass.
  unfold bind at 1. unfold clock. cbn [snd].
  destruct (perf_counter E (st_world s)) as [t0 w0] eqn:E0. cbn [fst snd].
  set (s0 := mk_state E w0 _ _).
  assert (L0 : logged s s0 []) by (split; simpl; now rewrite ?app_nil_r).
  destruct (parallel_map_spec E tasks s0)
    as [results [s1 [ev1 [H [L [C [F [R S]]]]]]]].
  unfold bind at 1. rewrite H. cbn [fst snd]. unfold bind at 1.
  destruct (perf_counter E (st_world s1)) as [t1 w1] eqn:E1. cbn [fst snd].
  set (s2 := mk_state E w1 _ _).
  assert (L2 : logged s1 s2 []) by (split; simpl; now rewrite ?app_nil_r).
  pose proof (logged_trans L0 (logged_trans L L2)) as L'.
  simpl in L'. rewrite app_nil_r in L'.
  destruct (pool_rows_spec (t1 - t0) worker_counts s2)
    as [ev2 [r2 [s3 [H2 [L3 [N2 D2]]]]]].
  unfold bind at 1. rewrite H2.
  exists (ev1 ++ ev2).
  assert (N : tasks = [] -> ev1 ++ ev2 = []).
  { intros Ht. rewrite (N2 Ht).
    now rewrite (parallel_map_empty s0 s1 results ev1 Ht C R S). }
  assert (P : exists more, calls (ev1 ++ ev2) = tasks ++ more).
  { exists (calls ev2). now rewrite calls_app, C. }
  destruct r2 as [rows | e]; cbn [ret]; do 2 eexists;
    (split; [reflexivity |]); (split; [exact (logged_trans L' L3) |]);
    (split; [exact N |]); (split; [exact P |]).
  - exists rows. destruct D2 as [W [Q Rw]]. simpl. auto.
  - exact D2.
Qed.

End Suite.

(** ** The nodes of distributed_sim.py *)

Section Nodes.
Variable E : Externals.

(** A node reads the clock, processes its list in order, reads the clock and
    puts one result on the queue. *)
Lemma node_worker_spec (node_id : Z) (image_list : list path)
    (output_dir : path) (s : state E) :
  exists evs time_taken s',
    Distributed.node_worker E node_id image_list output_dir s = (Ok tt, s') /\
    st_log s' = st_log s ++ evs /\
    calls evs = node_plan E output_dir image_list /\
    st_queue s' =
      st_queue s ++
      [(node_id, Z.of_nat (List.length image_list), time_taken)].
Proof.
  unfold Distributed.node_worker.
  unfold bind at 1. unfold clock.
  destruct (perf_counter E (st_world s)) as [t0 w0].
  set (s0 := mk_state E w0 _ _).
  destruct (forM_calls E
              (fun input_path =>
                 Distributed.process_image E input_path
                   (Distributed.node_output_path E output_dir input_path))
              (fun input_path =>
                 (input_path,
                  Distributed.node_output_path E output_dir input_path)))
    with (l := image_list) (s := s0) as [s1 [evs [H [[L Q] [C _]]]]].
  { intros a s2.
    destruct (distributed_process_image_spec E a
                (Distributed.node_output_path E output_dir a) s2)
      as [b [s3 [ev [H [L [U _]]]]]].
    now exists PyNone, b, s3, ev. }
  unfold bind at 1. rewrite H. unfold bind at 1.
  destruct (perf_counter E (st_world s1)) as [t1 w1].
  exists evs, (t1 - t0)%float. eexists. split; [reflexivity |].
  cbn [queue_put st_log st_queue]. rewrite L, Q. auto.
Qed.

Lemma bind_ok {A B : Type} (m : M E A) (k : A -> M E B) (s : state E)
    {s1 : state E} {a : A} :
  m s = (Ok a, s1) -> bind m k s = k a s1.
Proof. intros H. unfold bind. now rewrite H. Qed.

(** The launch loop starts at most two nodes, in the order of their ids, and
    fails on the third. *)
Lemma launch_loop_spec (p1 p2 : list path) (k : Z) (s : state E) :
  exists evs newq r s',
    launch_loop E [p1; p2] k s = (r, s') /\
    st_log s' = st_log s ++ evs /\
    st_queue s' = st_queue s ++ newq /\
    calls evs =
      List.concat
        (firstn (launched_nodes k)
           [node_plan E (Distributed.OUTPUT_DIR_NODE1 E) p1;
            node_plan E (Distributed.OUTPUT_DIR_NODE2 E) p2]) /\
    map node_id_of newq = firstn (launched_nodes k) [1; 2] /\
    (if k <=? 2 then r = Ok tt
     else exists e, r = Raise e /\ exn_class e = IndexError).
Proof.
  set (nw1 := Distributed.node_worker E 1 p1 (Distributed.OUTPUT_DIR_NODE1 E)).
  set (nw2 := Distributed.node_worker E 2 p2 (Distributed.OUTPUT_DIR_NODE2 E)).
  destruct (node_worker_spec 1 p1 (Distributed.OUTPUT_DIR_NODE1 E) s)
    as [ev1 [t1 [s1 [H1 [L1 [C1 Q1]]]]]]. fold nw1 in H1.
  destruct (node_worker_spec 2 p2 (Distributed.OUTPUT_DIR_NODE2 E) s1)
    as [ev2 [t2 [s2 [H2 [L2 [C2 Q2]]]]]]. fold nw2 in H2.
  unfold launched_nodes.
  destruct (k <=? 2) eqn:Hk2;
    [apply Z.leb_le in Hk2 | apply Z.leb_gt in Hk2];
    destruct (Z.to_nat k) as [| [| [| n]]] eqn:Hn; try lia.
  - exists [], [], (Ok tt), s.
    assert (Eq : launch_loop E [p1; p2] k s = (Ok tt, s))
      by (unfold launch_loop, range; rewrite Hn; reflexivity).
    rewrite Eq, !app_nil_r. auto 10.
  - exists ev1, [(1, Z.of_nat (List.length p1), t1)], (Ok tt), s1.
    assert (Eq : launch_loop E [p1; p2] k s = (nw1 ;;; ret tt) s)
      by (unfold launch_loop, range; rewrite Hn; reflexivity).
    rewrite Eq, (bind_ok _ _ _ H1). simpl. rewrite app_nil_r. auto 10.
  - exists (ev1 ++ ev2),
      [(1, Z.of_nat (List.length p1), t1);
       (2, Z.of_nat (List.length p2), t2)], (Ok tt), s2.
    assert (Eq : launch_loop E [p1; p2] k s = (nw1 ;;; nw2 ;;; ret tt) s)
      by (unfold launch_loop, range; rewrite Hn; reflexivity).
    rewrite Eq, (bind_ok _ _ _ H1), (bind_ok _ _ _ H2).
    rewrite L2, L1, Q2, Q1, calls_app, C1, C2, <- !app_assoc. simpl.
    rewrite app_nil_r. auto 10.
  - set (e := mk_exn IndexError "list index out of range").
    exists (ev1 ++ ev2),
      [(1, Z.of_nat (List.length p1), t1);
       (2, Z.of_nat (List.length p2), t2)], (Raise e), s2.
    assert (Eq : launch_loop E [p1; p2] k s = (nw1 ;;; nw2 ;;; raise e) s)
      by (unfold launch_loop, range; rewrite Hn; reflexivity).
    rewrite Eq, (bind_ok _ _ _ H1), (bind_ok _ _ _ H2).
    rewrite L2, L1, Q2, Q1, calls_app, C1, C2, <- !app_assoc. simpl.
    rewrite app_nil_r. repeat split. now exists e.
Qed.

End Nodes.

(** ** Sorting the node results *)

Lemma tuple_lt_true (x y : node_result) :
  Distributed.tuple_lt x y = true -> id_le x y.
Proof.
  destruct x as [[a b] c], y as [[a' b'] c'].
  unfold Distributed.tuple_lt, id_le, node_id_of. simpl.
  destruct (a =? a') eqn:Ha; simpl.
  - apply Z.eqb_eq in Ha. lia.
  - intros H. apply Z.ltb_lt in H. lia.
Qed.

Lemma tuple_lt_false (x y : node_result) :
  Distributed.tuple_lt x y = false -> id_le y x.
Proof.
  destruct x as [[a b] c], y as [[a' b'] c'].
  unfold Distributed.tuple_lt, id_le, node_id_of. simpl.
  destruct (a =? a') eqn:Ha; simpl.
  - apply Z.eqb_eq in Ha. lia.
  - intros H. apply Z.ltb_ge in H. lia.
Qed.

Lemma insert_perm (x : node_result) (l : list node_result) :
  Permutation (Distributed.insert x l) (x :: l).
Proof.
  induction l as [| y l IH]; simpl; [reflexivity |].
  destruct (Distributed.tuple_lt y x); [| reflexivity].
  rewrite IH. apply perm_swap.
Qed.

Lemma sort_perm (l : list node_result) : Permutation (Distributed.sort l) l.
Proof.
  induction l as [| x l IH]; simpl; [reflexivity |].
  rewrite insert_perm. now constructor.
Qed.

Lemma insert_hd (x y : node_result) (l : list node_result) :
  id_le y x -> HdRel id_le y l -> HdRel id_le y (Distributed.insert x l).
Proof.
  intros Hyx Hl. destruct l as [| z l]; simpl; [now constructor |].
  destruct (Distributed.tuple_lt z x); constructor; [| exact Hyx].
  now inversion Hl.
Qed.

Lemma insert_sorted (x : node_result) (l : list node_result) :
  Sorted id_le l -> Sorted id_le (Distributed.insert x l).
Proof.
  induction 1 as [| y l Hs IH Hh]; simpl; [repeat constructor |].
  destruct (Distributed.tuple_lt y x) eqn:Hlt.
  - constructor; [exact IH |].
    apply insert_hd; [now apply tuple_lt_true | exact Hh].
  - constructor; [now constructor |].
    constructor. now apply tuple_lt_false.
Qed.

Lemma sort_sorted (l : list node_result) : Sorted id_le (Distributed.sort l).
Proof.
  induction l as [| x l IH]; simpl; [constructor | now apply insert_sorted].
Qed.

(** A list sorted by id whose ids are those of nodes 1 and 2 lists node 1
    first. *)
Lemma sorted_two_nodes (rows l : list node_result) :
  Sorted id_le rows -> Permutation rows l -> map node_id_of l = [1; 2] ->
  map node_id_of rows = [1; 2].
Proof.
  intros Hs Hp Hl.
  apply (Permutation_map node_id_of), Permutation_sym in Hp.
  rewrite Hl in Hp. apply Permutation_length_2_inv in Hp.
  destruct Hp as [Hp | Hp]; [exact Hp | exfalso].
  destruct rows as [| x [| y [| z rows]]]; try discriminate Hp.
  injection Hp as Hx Hy.
  inversion Hs as [| ? ? _ Hh]; subst. inversion Hh as [| ? ? Hxy]; subst.
  unfold id_le in Hxy. lia.
Qed.

(** ** [main()] of distributed_sim.py *)

Section DistributedMain.
Variable E : Externals.

Lemma node_tasks_shape {A : Type} (k : Z) (l : list A) :
  (k = 0 /\ exists e, Distributed.node_tasks k l = Raise e /\
                      exn_class e = ZeroDivisionError) \/
  (k <> 0 /\ exists p1 p2, Distributed.node_tasks k l = Ok [p1; p2]).
Proof.
  unfold Distributed.node_tasks, ceil_div.
  destruct (k =? 0) eqn:Hk.
  - left. apply Z.eqb_eq in Hk. split; [exact Hk |]. now eexists.
  - right. apply Z.eqb_neq in Hk. split; [exact Hk |]. now do 2 eexists.
Qed.

Lemma truediv_raise (a b : float) (e : pyexn) :
  truediv a b = Raise e -> exn_class e = ZeroDivisionError.
Proof.
  unfold truediv. destruct (PrimFloat.eqb b 0); [| discriminate].
  now intros [= <-].
Qed.

(** The run, step by step. [t0] and [w0] are the first reading of the clock
    and the world after it, in which the dataset is walked. *)
Lemma distributed_main_spec (k : Z) (s : state E) (t0 : float) (w0 : world E) :
  perf_counter E (st_world s) = (t0, w0) ->
  let all_image_paths := walk_image_paths E w0 in
  exists evs newq r s',
    Distributed.main_cfg E k s = (r, s') /\
    st_log s' = st_log s ++ evs /\
    match Distributed.node_tasks k all_image_paths with
    | Raise e0 =>
        k = 0 /\ evs = [] /\ newq = [] /\ r = Raise e0 /\
        exn_class e0 = ZeroDivisionError /\ st_queue s' = st_queue s
    | Ok parts =>
        k <> 0 /\
        exists p1 p2,
          parts = [p1; p2] /\
          calls evs =
            List.concat
              (firstn (launched_nodes k)
                 [node_plan E (Distributed.OUTPUT_DIR_NODE1 E) p1;
                  node_plan E (Distributed.OUTPUT_DIR_NODE2 E) p2]) /\
          map node_id_of newq = firstn (launched_nodes k) [1; 2] /\
          match r with
          | Ok (rows, total, efficiency) =>
              k <= 2 /\
              (exists w,
                  rows =
                    Distributed.sort
                      (queue_order E w (st_queue s ++ newq))) /\
              truediv Distributed.SEQUENTIAL_TIME total = Ok efficiency
          | Raise e =>
              (2 < k /\ exn_class e = IndexError) \/
              (k <= 2 /\ exn_class e = ZeroDivisionError)
          end
    end.
Proof.
  intros E0 paths. unfold Distributed.main_cfg.
  unfold bind at 1. unfold clock at 1. rewrite E0.
  set (s0 := mk_state E w0 _ _).
  unfold bind at 1. cbn [observe]. change (st_world s0) with w0. fold paths.
  unfold bind at 1. unfold lift at 1.
  destruct (node_tasks_shape k paths)
    as [[Hk [e0 [Hn He0]]] | [Hk [p1 [p2 Hn]]]]; rewrite Hn.
  - exists [], [], (Raise e0), s0. rewrite app_nil_r. auto 10.
  - unfold bind at 1. unfold clock at 1.
    destruct (perf_counter E (st_world s0)) as [t1 w1].
    set (s1 := mk_state E w1 _ _).
    change (forM_ _ (range k)) with (launch_loop E [p1; p2] k).
    destruct (launch_loop_spec E p1 p2 k s1)
      as [evs [newq [r [s2 [H [L [Q [C [I R]]]]]]]]].
    unfold bind at 1. rewrite H.
    exists evs, newq.
    destruct (k <=? 2) eqn:Hk2;
      [apply Z.leb_le in Hk2 | apply Z.leb_gt in Hk2].
    + subst r. unfold bind at 1. unfold clock at 1.
      destruct (perf_counter E (st_world s2)) as [t2 w2].
      set (s3 := mk_state E w2 _ _).
      unfold bind at 1. cbn [queue_drain]. unfold bind, lift, ret.
      change (st_queue s3) with (st_queue s2). rewrite Q.
      destruct (truediv Distributed.SEQUENTIAL_TIME (t2 - t1)) eqn:Hd;
        do 2 eexists; (split; [reflexivity |]);
        (split; [exact L |]); (split; [exact Hk |]);
        exists p1, p2; (split; [reflexivity |]);
        (split; [exact C |]); (split; [exact I |]).
      * split; [exact Hk2 |]. split; [now eexists | exact Hd].
      * right. split; [exact Hk2 | exact (truediv_raise _ _ _ Hd)].
    + destruct R as [e [-> He]].
      do 2 eexists. split; [reflexivity |]. split; [exact L |].
      split; [exact Hk |]. exists p1, p2. split; [reflexivity |].
      split; [exact C |]. split; [exact I |]. left. now split.
Qed.

End DistributedMain.

(** ** Output paths *)

Lemma strip_common_prefix (start rel : path) :
  strip_common (start ++ rel) start = (rel, []).
Proof.
  induction start as [| c start IH]; simpl.
  - now destruct rel.
  - now rewrite String.eqb_refl.
Qed.

Lemma relpath_under (start rel : path) :
  rel <> [] -> relpath (start ++ rel) start = rel.
Proof.
  intros Hr. unfold relpath. rewrite strip_common_prefix. simpl.
  destruct rel; [contradiction | reflexivity].
Qed.

Section OutputPaths.
Variable E : Externals.

Lemma node_output_path_under (output_dir rel : path) :
  rel <> [] ->
  Distributed.node_output_path E output_dir (SOURCE_DIR E ++ rel)
  = output_dir ++ rel.
Proof.
  intros Hr. unfold Distributed.node_output_path, join.
  now rewrite relpath_under.
Qed.

Lemma walk_image_paths_under (w : world E) :
  walk_below_top E w -> Forall (under (SOURCE_DIR E)) (walk_image_paths E w).
Proof.
  intros Hw. apply Forall_forall. intros p Hp.
  unfold walk_image_paths in Hp. apply in_flat_map in Hp.
  destruct Hp as [[root files] [Hin Hp]].
  apply in_map_iff in Hp. destruct Hp as [file [<- _]].
  destruct (Hw root files Hin) as [sub ->].
  exists (sub ++ [file]). split.
  - intros H. now apply app_eq_nil in H as [_ H].
  - unfold join. now rewrite app_assoc.
Qed.

(** Below one output directory, distinct inputs get distinct outputs. *)
Lemma output_paths_nodup (output_dir : path) (l : list path) :
  NoDup l -> Forall (under (SOURCE_DIR E)) l ->
  NoDup (map (Distributed.node_output_path E output_dir) l).
Proof.
  intros Hnd Hu. apply NoDup_map_NoDup_ForallPairs; [| exact Hnd].
  intros x y Hx Hy Heq.
  rewrite Forall_forall in Hu.
  destruct (Hu x Hx) as [rx [Hrx ->]]. destruct (Hu y Hy) as [ry [Hry ->]].
  rewrite !node_output_path_under in Heq by assumption.
  apply app_inv_head in Heq. now subst.
Qed.

Lemma node_dirs_differ :
  Distributed.OUTPUT_DIR_NODE1 E <> Distributed.OUTPUT_DIR_NODE2 E.
Proof.
  unfold Distributed.OUTPUT_DIR_NODE1, Distributed.OUTPUT_DIR_NODE2, join.
  intros H. apply app_inv_head in H. discriminate H.
Qed.

Lemma map_snd_node_plan (output_dir : path) (l : list path) :
  map snd (node_plan E output_dir l)
  = map (Distributed.node_output_path E output_dir) l.
Proof. unfold node_plan. rewrite map_map. reflexivity. Qed.

(** The outputs of the two nodes, put together, are pairwise distinct. *)
Lemma node_plans_nodup (p1 p2 : list path) :
  NoDup (p1 ++ p2) -> Forall (under (SOURCE_DIR E)) (p1 ++ p2) ->
  NoDup (map snd (node_plan E (Distributed.OUTPUT_DIR_NODE1 E) p1) ++
         map snd (node_plan E (Distributed.OUTPUT_DIR_NODE2 E) p2)).
Proof.
  intros Hnd Hu. apply Forall_app in Hu. destruct Hu as [Hu1 Hu2].
  rewrite !map_snd_node_plan. apply NoDup_app.
  - apply output_paths_nodup; [now apply NoDup_app_remove_r in Hnd | exact Hu1].
  - apply output_paths_nodup; [now apply NoDup_app_remove_l in Hnd | exact Hu2].
  - intros o H1 H2.
    apply in_map_iff in H1. destruct H1 as [x [<- Hx]].
    apply in_map_iff in H2. destruct H2 as [y [Heq Hy]].
    rewrite Forall_forall in Hu1, Hu2.
    destruct (Hu1 x Hx) as [rx [Hrx ->]]. destruct (Hu2 y Hy) as [ry [Hry ->]].
    rewrite !node_output_path_under in Heq by assumption.
    unfold Distributed.OUTPUT_DIR_NODE1, Distributed.OUTPUT_DIR_NODE2, join
      in Heq.
    rewrite <- !app_assoc in Heq. apply app_inv_head in Heq.
    discriminate Heq.
Qed.

End OutputPaths.

(** ** The claims on the partition *)

(** C3, as stated, fails for a degree above two: with six units and three
    nodes the second task list is [units[2:6]], not [units[2:4]]. *)
Lemma node_tasks_three_nodes :
  ~ (forall (l : list nat) (k i : Z),
        1 <= k -> 0 <= i < k ->
        exists parts,
          Distributed.node_tasks k l = Ok parts /\
          index parts i = Ok (spec_partition l k i)).
Proof.
  intros H.
  destruct (H [0; 1; 2; 3; 4; 5]%nat 3 1) as [parts [Hp Hi]]; [lia | lia |].
  vm_compute in Hp. injection Hp as <-.
  vm_compute in Hi. discriminate Hi.
Qed.

(** C3, amended. For a degree [k >= 1] the partitioner computes
    [chunk_size = ceil(N / k)] and builds two task lists, the elements
    [[0, min(N, chunk_size))] and [[min(N, chunk_size), N)], where
    [chunk_size] is the least [c] with [N <= k * c]; for [k <= 2]
    partition [i < k] is [[i*chunk_size, min(N, (i+1)*chunk_size))]; five
    units on [NUM_NODES = 2] nodes are split into [units[0:3]] and
    [units[3:5]]. *)
Theorem node_tasks_two_slices (A : Type) (l : list A) (k : Z) :
  1 <= k ->
  let N := Z.of_nat (List.length l) in
  let chunk_size := spec_chunk_size N k in
  ceil_div N k = Ok chunk_size /\
  k * (chunk_size - 1) < N <= k * chunk_size /\
  Distributed.node_tasks k l
    = Ok [interval l 0 (Z.min N chunk_size);
          interval l (Z.min N chunk_size) N] /\
  (k <= 2 -> forall i, 0 <= i < k ->
     exists parts,
       Distributed.node_tasks k l = Ok parts /\
       index parts i = Ok (spec_partition l k i)) /\
  (forall u0 u1 u2 u3 u4 : A,
     Distributed.node_tasks Distributed.NUM_NODES [u0; u1; u2; u3; u4]
     = Ok [[u0; u1; u2]; [u3; u4]]).
Proof.
  intros Hk N chunk_size.
  split; [exact (ceil_div_pos N k Hk) |].
  split; [subst chunk_size; unfold spec_chunk_size;
          Z.div_mod_to_equations; nia |].
  split; [exact (node_tasks_slices l k Hk) |].
  split; [| reflexivity].
  intros Hk2 i Hi. eexists. split; [exact (node_tasks_slices l k Hk) |].
  fold N chunk_size.
  destruct (spec_chunk_size_bounds N k) as [Hc0 HcN];
    [subst N; lia | exact Hk |]. fold chunk_size in Hc0, HcN.
  unfold spec_partition. fold N chunk_size.
  assert (Hi' : i = 0 \/ (i = 1 /\ k = 2)) by lia.
  destruct Hi' as [-> | [-> ->]].
  - cbn [index List.length Z.of_nat Z.ltb Z.compare orb Z.leb Z.to_nat
         nth_error Pos.of_succ_nat Pos.succ].
    now rewrite Z.mul_0_l, Z.add_0_l, Z.mul_1_l, Z.min_comm.
  - cbn [index List.length Z.of_nat Z.ltb Z.compare orb Z.leb Z.to_nat
         nth_error Pos.of_succ_nat Pos.succ Pos.compare Pos.compare_cont
         Pos.to_nat Pos.iter_op Nat.add].
    assert (Hle : chunk_size <= N).
    { subst chunk_size. unfold spec_chunk_size.
      Z.div_mod_to_equations. subst N. lia. }
    rewrite Z.mul_1_l.
    replace (Z.min N chunk_size) with chunk_size by lia.
    replace (Z.min N ((1 + 1) * chunk_size)) with N by lia.
    reflexivity.
Qed.

(** Five units on two nodes: three and two. *)
Lemma node_tasks_two_slices_witness :
  Distributed.node_tasks 2 [10; 11; 12; 13; 14]%nat
  = Ok [[10; 11; 12]; [13; 14]]%nat.
Proof.
  destruct (node_tasks_two_slices nat [10; 11; 12; 13; 14]%nat 2 ltac:(lia))
    as [_ [_ [H _]]].
  exact H.
Defined.

(** ** The claims on the distributed run *)

Lemma world_after_clock (E : Externals) (s : state E) (t0 : float)
    (w0 : world E) :
  perf_counter E (st_world s) = (t0, w0) -> st_world (snd (clock s)) = w0.
Proof. intros H. unfold clock. now rewrite H. Qed.

(** C9. When the walk yields distinct input paths, all below the source
    directory, no two calls of [process_image] of a distributed run get the
    same output path: the two nodes write below two different directories,
    and below each the output path follows the input path. *)
Theorem node_outputs_are_disjoint (E : Externals) (k : Z) (s : state E)
    (r : pyresult Distributed.report) (s' : state E) :
  let w := st_world (snd (clock s)) in
  Distributed.main_cfg E k s = (r, s') ->
  NoDup (walk_image_paths E w) ->
  walk_below_top E w ->
  Distributed.OUTPUT_DIR_NODE1 E <> Distributed.OUTPUT_DIR_NODE2 E /\
  exists evs,
    st_log s' = st_log s ++ evs /\
    NoDup (map snd (calls evs)) /\
    Forall (fun o => under (Distributed.OUTPUT_DIR_NODE1 E) o \/
                     under (Distributed.OUTPUT_DIR_NODE2 E) o)
           (map snd (calls evs)).
Proof.
  intros w Hrun Hnd Hw. split; [apply node_dirs_differ |].
  destruct (perf_counter E (st_world s)) as [t0 w0] eqn:E0.
  assert (Hw0 : w = w0) by exact (world_after_clock E s t0 w0 E0).
  rewrite Hw0 in Hnd, Hw. clear w Hw0.
  destruct (distributed_main_spec E k s t0 w0 E0)
    as [evs [newq [r0 [s0 [H [L D]]]]]].
  rewrite Hrun in H. injection H as <- <-.
  exists evs. split; [exact L |].
  destruct (Distributed.node_tasks k (walk_image_paths E w0))
    as [parts | e0] eqn:Hn.
  2: { destruct D as [_ [-> _]]. split; constructor. }
  destruct D as [_ [p1 [p2 [-> [C _]]]]].
  pose proof (node_tasks_concat _ _ _ Hn) as Hc.
  simpl in Hc. rewrite app_nil_r in Hc.
  pose proof (walk_image_paths_under E w0 Hw) as Hu.
  rewrite <- Hc in Hnd, Hu.
  pose proof (node_plans_nodup E p1 p2 Hnd Hu) as Hplans.
  assert (Hdirs :
    Forall (fun o => under (Distributed.OUTPUT_DIR_NODE1 E) o \/
                     under (Distributed.OUTPUT_DIR_NODE2 E) o)
      (map snd (node_plan E (Distributed.OUTPUT_DIR_NODE1 E) p1) ++
       map snd (node_plan E (Distributed.OUTPUT_DIR_NODE2 E) p2))).
  { apply Forall_app in Hu. destruct Hu as [Hu1 Hu2].
    rewrite !map_snd_node_plan. apply Forall_app. split; apply Forall_forall;
      intros o Ho; apply in_map_iff in Ho; destruct Ho as [x [<- Hx]].
    - rewrite Forall_forall in Hu1. destruct (Hu1 x Hx) as [rx [Hrx ->]].
      left. exists rx. split; [exact Hrx |].
      now apply node_output_path_under.
    - rewrite Forall_forall in Hu2. destruct (Hu2 x Hx) as [rx [Hrx ->]].
      right. exists rx. split; [exact Hrx |].
      now apply node_output_path_under. }
  rewrite C. unfold launched_nodes.
  destruct (Z.to_nat k) as [| [| [| n]]];
    cbn [Nat.min firstn List.concat]; rewrite ?app_nil_r, ?map_app.
  - split; constructor.
  - split.
    + now apply NoDup_app_remove_r in Hplans.
    + apply Forall_app in Hdirs. tauto.
  - now split.
  - now split.
Qed.

Lemma demo_walk_below_top (w : Demo.demo_world) : walk_below_top Demo.demo w.
Proof.
  intros root files Hin. simpl in Hin.
  apply in_map_iff in Hin. destruct Hin as [[sub fs] [Heq _]].
  injection Heq as <- _. now exists sub.
Qed.

(** The small dataset on two nodes. *)
Lemma node_outputs_are_disjoint_witness :
  let s := Demo.start [1; 2; 3; 4; 5; 6; 7; 8]%float Demo.small_listing in
  exists evs,
    st_log (snd (Distributed.main_cfg Demo.demo 2 s)) = st_log s ++ evs /\
    NoDup (map snd (calls evs)).
Proof.
  intros s.
  destruct (node_outputs_are_disjoint Demo.demo 2 s
              (fst (Distributed.main_cfg Demo.demo 2 s))
              (snd (Distributed.main_cfg Demo.demo 2 s)))
    as [_ [evs [H1 [H2 _]]]].
  - apply surjective_pairing.
  - vm_compute.
    repeat (constructor;
            [intros H; simpl in H;
             repeat (destruct H as [H | H]; [discriminate H |]);
             exact H |]).
    constructor.
  - apply demo_walk_below_top.
  - exists evs. split; assumption.
Defined.

(** C8. The rows of a completed run are in ascending order: the table of
    parallel_process.py lists the workers 1, 2, 4, 8, the baseline first; the
    node lines of distributed_sim.py are sorted by node id, and, whatever
    order the two results arrived in, node 1 comes before node 2. *)
Theorem report_rows_are_ascending (E : Externals) (s : state E) :
  (forall table s',
      Parallel.main E s = (Ok table, s') ->
      map row_workers table = [1; 2; 4; 8]) /\
  (forall k rows total efficiency s',
      Distributed.main_cfg E k s = (Ok (rows, total, efficiency), s') ->
      Sorted id_le rows) /\
  (forall rows total efficiency s',
      Distributed.main E s = (Ok (rows, total, efficiency), s') ->
      st_queue s = [] ->
      (forall w l, Permutation (queue_order E w l) l) ->
      map node_id_of rows = [1; 2]).
Proof.
  split; [| split].
  - intros table s' H. unfold Parallel.main, Parallel.main_cfg in H.
    unfold bind in H. cbn [observe] in H.
    destruct (run_suite_spec E
                (walk_tasks E (Parallel.OUTPUT_DIR E) (st_world s))
                [2; 4; 8] s) as [evs [r [s1 [Hr [_ [_ [_ D]]]]]]].
    rewrite Hr in H. injection H as -> ->.
    destruct D as [rows [-> [W _]]]. simpl. now rewrite W.
  - intros k rows total efficiency s' H.
    destruct (perf_counter E (st_world s)) as [t0 w0] eqn:E0.
    destruct (distributed_main_spec E k s t0 w0 E0)
      as [evs [newq [r [s1 [Hr [_ D]]]]]].
    rewrite Hr in H. injection H as -> ->.
    destruct (Distributed.node_tasks k (walk_image_paths E w0));
      [| destruct D as [_ [_ [_ [D _]]]]; discriminate D].
    destruct D as [_ [p1 [p2 [_ [_ [_ [_ [[w ->] _]]]]]]]].
    apply sort_sorted.
  - intros rows total efficiency s' H Hq Hperm.
    unfold Distributed.main in H.
    destruct (perf_counter E (st_world s)) as [t0 w0] eqn:E0.
    destruct (distributed_main_spec E Distributed.NUM_NODES s t0 w0 E0)
      as [evs [newq [r [s1 [Hr [_ D]]]]]].
    rewrite Hr in H. injection H as -> ->.
    destruct (Distributed.node_tasks Distributed.NUM_NODES
                (walk_image_paths E w0));
      [| destruct D as [_ [_ [_ [D _]]]]; discriminate D].
    destruct D as [_ [p1 [p2 [_ [_ [I [_ [[w ->] _]]]]]]]].
    rewrite Hq in *. simpl in I.
    apply (sorted_two_nodes _ newq); [apply sort_sorted | | exact I].
    rewrite sort_perm. apply Hperm.
Qed.

(** Both scripts on the small dataset; node 2 reaches the queue first. *)
Lemma report_rows_are_ascending_witness :
  let s := Demo.start [1; 2; 3; 4; 5; 6; 7; 8]%float Demo.small_listing in
  (exists table s',
      Parallel.main Demo.demo s = (Ok table, s') /\
      map row_workers table = [1; 2; 4; 8]) /\
  (exists rows total efficiency s',
      Distributed.main Demo.demo s = (Ok (rows, total, efficiency), s') /\
      map node_id_of rows = [1; 2]).
Proof.
  intros s. destruct (report_rows_are_ascending Demo.demo s) as [H1 [_ H3]].
  split.
  - do 2 eexists. split; [vm_compute; reflexivity |].
    eapply H1. vm_compute. reflexivity.
  - do 4 eexists. split; [vm_compute; reflexivity |].
    eapply H3; [vm_compute; reflexivity | reflexivity |].
    intros w l. simpl. symmetry. apply Permutation_rev.
Defined.

(** ** The claims on the configuration *)

(** C7, as stated, fails: with [NUM_NODES = -1] the distributed run raises
    nothing at all, let alone a [ConfigurationError]. *)
Lemma negative_degree_is_not_refused :
  ~ (forall (E : Externals) (k : Z) (s : state E),
        k <= 0 ->
        exists msg s',
          Distributed.main_cfg E k s
            = (Raise (mk_exn (UserDefined "ConfigurationError") msg), s') /\
          st_log s' = st_log s).
Proof.
  intros H.
  destruct (H Demo.demo (-1)
              (Demo.start [1; 2; 3]%float Demo.small_listing))
    as [msg [s' [Hr _]]]; [lia |].
  vm_compute in Hr. discriminate Hr.
Qed.

(** C7, amended. No degree is checked. With [NUM_NODES = 0] the distributed
    run fails with a [ZeroDivisionError] before any node is started or any
    unit processed. With [NUM_NODES < 0] it starts no node, processes no unit
    and either reports or fails with the [ZeroDivisionError] of the
    efficiency. A [worker_counts] with an entry below one makes the pool run
    fail, with the [ValueError] of the pool constructor or the
    [ZeroDivisionError] of a speedup, after the 1-worker baseline has
    processed the whole batch. *)
Theorem invalid_degree_behaviour (E : Externals) (s : state E) :
  (exists e s',
      Distributed.main_cfg E 0 s = (Raise e, s') /\
      exn_class e = ZeroDivisionError /\
      st_log s' = st_log s /\ st_queue s' = st_queue s) /\
  (forall k, k < 0 ->
     exists r s' evs,
       Distributed.main_cfg E k s = (r, s') /\
       st_log s' = st_log s ++ evs /\ calls evs = [] /\
       match r with
       | Ok (rows, _, _) =>
           exists w, rows = Distributed.sort (queue_order E w (st_queue s))
       | Raise e => exn_class e = ZeroDivisionError
       end) /\
  (forall worker_counts tasks,
     Exists (fun count => count < 1) worker_counts ->
     exists e s' evs more,
       Parallel.run_suite E worker_counts tasks s = (Raise e, s') /\
       pool_or_division_error e /\
       logged s s' evs /\ calls evs = tasks ++ more).
Proof.
  destruct (perf_counter E (st_world s)) as [t0 w0] eqn:E0.
  split; [| split].
  - destruct (distributed_main_spec E 0 s t0 w0 E0)
      as [evs [newq [r [s' [Hr [L D]]]]]].
    destruct (Distributed.node_tasks 0 (walk_image_paths E w0)) as [parts | e0].
    + now destruct D as [D _].
    + destruct D as [_ [-> [_ [-> [He Q]]]]].
      exists e0, s'. rewrite app_nil_r in L. auto.
  - intros k Hk.
    destruct (distributed_main_spec E k s t0 w0 E0)
      as [evs [newq [r [s' [Hr [L D]]]]]].
    exists r, s', evs. split; [exact Hr |]. split; [exact L |].
    destruct (Distributed.node_tasks k (walk_image_paths E w0)) as [parts | e0].
    2: { destruct D as [D _]. lia. }
    destruct D as [_ [p1 [p2 [_ [C [I R]]]]]].
    assert (Hn : launched_nodes k = 0%nat)
      by (unfold launched_nodes; replace (Z.to_nat k) with 0%nat by lia;
          reflexivity).
    rewrite Hn in C, I. simpl in C, I. apply map_eq_nil in I. subst newq.
    split; [exact C |].
    destruct r as [[[rows total] eff] | e].
    + destruct R as [_ [[w ->] _]]. exists w. now rewrite app_nil_r.
    + destruct R as [[R _] | [_ R]]; [lia | exact R].
  - intros worker_counts tasks Hex.
    destruct (run_suite_spec E tasks worker_counts s)
      as [evs [r [s' [Hr [L [_ [[more C] D]]]]]]].
    destruct r as [table | e].
    + exfalso. destruct D as [rows [_ [_ [Hall _]]]].
      apply Exists_exists in Hex. destruct Hex as [c [Hin Hc]].
      rewrite Forall_forall in Hall. specialize (Hall c Hin). lia.
    + exists e, s', evs, more. auto.
Qed.

(** [NUM_NODES = -1], and [worker_counts = [2, 0]] on the small dataset. *)
Lemma invalid_degree_behaviour_witness :
  let s := Demo.start [1; 2; 3; 4; 5; 6]%float Demo.small_listing in
  (exists r s', Distributed.main_cfg Demo.demo (-1) s = (r, s')) /\
  (exists e s',
      Parallel.run_suite Demo.demo [2; 0]
        (walk_tasks Demo.demo (Parallel.OUTPUT_DIR Demo.demo) (st_world s)) s
      = (Raise e, s') /\
      pool_or_division_error e).
Proof.
  intros s. destruct (invalid_degree_behaviour Demo.demo s) as [_ [H2 H3]].
  split.
  - destruct (H2 (-1)) as [r [s' [evs [H _]]]]; [lia |].
    exists r, s'. exact H.
  - destruct (H3 [2; 0]
                (walk_tasks Demo.demo (Parallel.OUTPUT_DIR Demo.demo)
                   (st_world s)))
      as [e [s' [evs [more [H [He _]]]]]].
    + apply Exists_cons_tl, Exists_cons_hd. lia.
    + exists e, s'. split; [exact H | exact He].
Defined.

(** ** The claims on the timing *)





(** C1 on distributed_sim.py. In the small world the 1-worker pass over the
    three images of the dataset takes 1.0 s by the clock, and the node run
    5.0 s; the efficiency that [main()] reports is [18.24 / 5.0], the
    constant over the elapsed time, and not [1.0 / 5.0]. *)
Lemma distributed_baseline_is_the_constant :
  let s := Demo.start [1; 2; 3; 4; 5; 6; 7; 8]%float Demo.small_listing in
  let tasks :=
    walk_tasks Demo.demo (Parallel.OUTPUT_DIR Demo.demo) (st_world s) in
  exists rows total efficiency s',
    Distributed.main Demo.demo s = (Ok (rows, total, efficiency), s') /\
    total = 5%float /\
    efficiency = (Distributed.SEQUENTIAL_TIME / total)%float /\
    Distributed.SEQUENTIAL_TIME = 18.24%float /\
    elapsed_of_pass Demo.demo tasks s = 1%float /\
    PrimFloat.eqb efficiency (elapsed_of_pass Demo.demo tasks s / total)
      = false.
Proof.
  intros s tasks. do 4 eexists.
  split; [vm_compute; reflexivity |].
  repeat split; vm_compute; reflexivity.
Qed.

(** In every run of distributed_sim.py that completes, the efficiency is the
    constant [SEQUENTIAL_TIME] over the elapsed time, whatever the batch. *)
Lemma distributed_efficiency_spec (E : Externals) (k : Z) (s : state E)
    (rows : list node_result) (total efficiency : float) (s' : state E) :
  Distributed.main_cfg E k s = (Ok (rows, total, efficiency), s') ->
  truediv Distributed.SEQUENTIAL_TIME total = Ok efficiency.
Proof.
  intros H.
  destruct (perf_counter E (st_world s)) as [t0 w0] eqn:E0.
  destruct (distributed_main_spec E k s t0 w0 E0)
    as [evs [newq [r [s1 [Hr [_ D]]]]]].
  rewrite Hr in H. injection H as -> ->.
  destruct (Distributed.node_tasks k (walk_image_paths E w0));
    [| destruct D as [_ [_ [_ [D _]]]]; discriminate D].
  now destruct D as [_ [p1 [p2 [_ [_ [_ [_ [_ D]]]]]]]].
Qed.

(** In every run of parallel_process.py that completes, each speedup is the
    measured baseline over the measured time of its own pass. *)
Lemma parallel_speedup_spec (E : Externals) (worker_counts : list Z)
    (tasks : list (path * path)) (s : state E) (table : list Parallel.row)
    (s' : state E) :
  Parallel.run_suite E worker_counts tasks s = (Ok table, s') ->
  exists rows,
    table = (1, elapsed_of_pass E tasks s, 1%float) :: rows /\
    Forall (row_of_pass E tasks (elapsed_of_pass E tasks s)) rows.
Proof.
  intros H.
  destruct (run_suite_spec E tasks worker_counts s)
    as [evs [r [s1 [Hr [_ [_ [_ D]]]]]]].
  rewrite Hr in H. injection H as -> ->.
  destruct D as [rows [-> [_ [_ R]]]]. now exists rows.
Qed.

(** ** The filter on file names *)

Lemma lower_append (a b : string) :
  lower (a ++ b)%string = (lower a ++ lower b)%string.
Proof. induction a as [| c a IH]; simpl; [reflexivity | now rewrite IH]. Qed.

Lemma length_lower (s : string) : String.length (lower s) = String.length s.
Proof. induction s as [| c s IH]; simpl; [reflexivity | now rewrite IH]. Qed.

Lemma string_length_append (a b : string) :
  String.length (a ++ b)%string = (String.length a + String.length b)%nat.
Proof. induction a as [| c a IH]; simpl; [reflexivity | now rewrite IH]. Qed.

Lemma substring_whole (s : string) : substring 0 (String.length s) s = s.
Proof. induction s as [| c s IH]; simpl; [reflexivity | now rewrite IH]. Qed.

Lemma substring_suffix (a b : string) :
  substring (String.length a) (String.length b) (a ++ b)%string = b.
Proof.
  induction a as [| c a IH]; simpl; [apply substring_whole | exact IH].
Qed.

Lemma lower_substring (n m : nat) (s : string) :
  lower (substring n m s) = substring n m (lower s).
Proof.
  revert n m. induction s as [| c s IH]; intros n m.
  - destruct n, m; reflexivity.
  - destruct n as [| n]; simpl.
    + destruct m as [| m]; simpl; [reflexivity | now rewrite IH].
    + apply IH.
Qed.

Lemma substring_split (k : nat) (s : string) :
  (k <= String.length s)%nat ->
  s = (substring 0 k s ++ substring k (String.length s - k) s)%string.
Proof.
  revert k. induction s as [| c s IH]; intros k Hk.
  - simpl in Hk. assert (k = 0%nat) as -> by lia. reflexivity.
  - destruct k as [| k]; simpl.
    + now rewrite substring_whole.
    + f_equal. apply IH. simpl in Hk. lia.
Qed.

Lemma endswith_append (a b : string) : endswith (a ++ b)%string b = true.
Proof.
  unfold endswith. rewrite string_length_append.
  replace (String.length a + String.length b - String.length b)%nat
    with (String.length a) by lia.
  rewrite substring_suffix, String.eqb_refl.
  apply andb_true_iff. split; [apply Nat.leb_le; lia | reflexivity].
Qed.

Lemma endswith_split (s x : string) :
  endswith s x = true ->
  exists k, (k <= String.length s)%nat /\
            (String.length s - k)%nat = String.length x /\
            substring k (String.length x) s = x.
Proof.
  unfold endswith. intros H. apply andb_true_iff in H. destruct H as [Hl He].
  apply Nat.leb_le in Hl. apply String.eqb_eq in He.
  exists (String.length s - String.length x)%nat. repeat split; [lia | lia |].
  exact He.
Qed.

(** X1. The filter of the walk accepts a file name exactly when it ends, in
    any mix of upper and lower case, with one of the four extensions. *)
Theorem is_image_file_iff (file : string) :
  is_image_file file = true <->
  exists stem ext : string,
    file = (stem ++ ext)%string /\
    In (lower ext) [".png"; ".jpg"; ".jpeg"; ".bmp"]%string.
Proof.
  unfold is_image_file. rewrite existsb_exists. split.
  - intros [x [Hin He]].
    destruct (endswith_split _ _ He) as [k [Hk [Hlen Hsub]]].
    rewrite length_lower in Hk, Hlen.
    exists (substring 0 k file), (substring k (String.length x) file). split.
    + rewrite <- Hlen. now apply substring_split.
    + rewrite lower_substring, Hsub. exact Hin.
  - intros [stem [ext [-> Hin]]].
    exists (lower ext). split; [exact Hin |].
    rewrite lower_append. apply endswith_append.
Qed.

(** ** The tasks of the walk *)

Section WalkTasks.
Variable E : Externals.

Lemma walk_tasks_inputs (OUTPUT_DIR : path) (w : world E) :
  map fst (walk_tasks E OUTPUT_DIR w) = walk_image_paths E w.
Proof. unfold walk_tasks. rewrite map_map. simpl. apply map_id. Qed.

Lemma walk_tasks_outputs (OUTPUT_DIR : path) (w : world E) :
  map snd (walk_tasks E OUTPUT_DIR w)
  = map (fun i => join OUTPUT_DIR (relpath i (SOURCE_DIR E)))
        (walk_image_paths E w).
Proof. unfold walk_tasks. rewrite map_map. reflexivity. Qed.

(** A directory beside the dataset has nothing below the dataset. *)
Lemma beside_source (name : string) (rel : path) :
  name <> "images_dataset"%string ->
  ~ under (SOURCE_DIR E) (join (SCRIPT_DIR E) [name] ++ rel).
Proof.
  intros Hn [rel' [_ H]]. unfold SOURCE_DIR, join in H.
  rewrite <- !app_assoc in H. apply app_inv_head in H.
  injection H as H _. contradiction.
Qed.

End WalkTasks.

Lemma walk_tasks_layout (E : Externals) (OUTPUT_DIR : path) (w : world E) :
  walk_below_top E w ->
  Forall (fun t => exists rel : path,
                     rel <> [] /\
                     fst t = SOURCE_DIR E ++ rel /\
                     snd t = OUTPUT_DIR ++ rel)
         (walk_tasks E OUTPUT_DIR w).
Proof.
  intros Hw.
  pose proof (walk_image_paths_under E w Hw) as Hu.
  unfold walk_tasks. apply Forall_map.
  eapply Forall_impl; [| exact Hu].
  intros i [rel [Hr ->]]. exists rel. simpl.
  rewrite relpath_under by exact Hr. auto.
Qed.

(** X2. The tasks of sequential_process.py and parallel_process.py keep the
    layout of the dataset: when the walk stays below the source directory,
    the inputs are the image paths of the walk, in its order, and each output
    path is the output directory followed by the path of its input relative
    to the source directory. *)
Theorem walk_tasks_keep_layout (E : Externals) (OUTPUT_DIR : path)
    (w : world E) :
  walk_below_top E w ->
  map fst (walk_tasks E OUTPUT_DIR w) = walk_image_paths E w /\
  Forall (fun t => exists rel : path,
                     rel <> [] /\
                     fst t = SOURCE_DIR E ++ rel /\
                     snd t = OUTPUT_DIR ++ rel)
         (walk_tasks E OUTPUT_DIR w).
Proof.
  intros Hw. split; [apply walk_tasks_inputs |].
  exact (walk_tasks_layout E OUTPUT_DIR w Hw).
Qed.

(** The small dataset and the output directory of sequential_process.py. *)
Lemma walk_tasks_keep_layout_witness :
  let w := Demo.mk_demo [] Demo.small_listing in
  map fst (walk_tasks Demo.demo (Sequential.OUTPUT_DIR Demo.demo) w)
  = walk_image_paths Demo.demo w.
Proof.
  intros w.
  destruct (walk_tasks_keep_layout Demo.demo
              (Sequential.OUTPUT_DIR Demo.demo) w
              (demo_walk_below_top w)) as [H _].
  exact H.
Defined.

(** X3. In sequential_process.py and parallel_process.py, distinct input
    paths below the source directory get distinct output paths, and no output
    path lies below the source directory: a run overwrites no image of the
    dataset and adds nothing that a later walk would find. *)
Theorem outputs_beside_dataset (E : Externals) (w : world E) :
  walk_below_top E w ->
  NoDup (walk_image_paths E w) ->
  (NoDup (map snd (walk_tasks E (Sequential.OUTPUT_DIR E) w)) /\
   NoDup (map snd (walk_tasks E (Parallel.OUTPUT_DIR E) w))) /\
  (forall i o,
      In (i, o) (walk_tasks E (Sequential.OUTPUT_DIR E) w) \/
      In (i, o) (walk_tasks E (Parallel.OUTPUT_DIR E) w) ->
      ~ under (SOURCE_DIR E) o /\ ~ In o (walk_image_paths E w)).
Proof.
  intros Hw Hnd.
  pose proof (walk_image_paths_under E w Hw) as Hu.
  split.
  - split; rewrite walk_tasks_outputs;
      exact (output_paths_nodup E _ _ Hnd Hu).
  - assert (Hout : forall name i o,
               name <> "images_dataset"%string ->
               In (i, o) (walk_tasks E (join (SCRIPT_DIR E) [name]) w) ->
               ~ under (SOURCE_DIR E) o).
    { intros name i o Hn Hin.
      pose proof (walk_tasks_layout E (join (SCRIPT_DIR E) [name]) w Hw)
        as Hl.
      rewrite Forall_forall in Hl.
      destruct (Hl _ Hin) as [rel [_ [_ Ho]]]. simpl in Ho. subst o.
      now apply beside_source. }
    intros i o Hin.
    assert (Hno : ~ under (SOURCE_DIR E) o).
    { destruct Hin as [Hin | Hin];
        [apply (Hout "output_seq"%string i o) |
         apply (Hout "output_parallel"%string i o)];
        solve [discriminate | exact Hin]. }
    split; [exact Hno |].
    intros Hi. rewrite Forall_forall in Hu. exact (Hno (Hu o Hi)).
Qed.

(** The small dataset. *)
Lemma outputs_beside_dataset_witness :
  let w := Demo.mk_demo [] Demo.small_listing in
  NoDup (map snd (walk_tasks Demo.demo (Sequential.OUTPUT_DIR Demo.demo) w)).
Proof.
  intros w.
  destruct (outputs_beside_dataset Demo.demo w (demo_walk_below_top w))
    as [[H _] _]; [| exact H].
  vm_compute.
  repeat (constructor;
          [intros H; simpl in H;
           repeat (destruct H as [H | H]; [discriminate H |]);
           exact H |]).
  constructor.
Defined.

(** ** More on the partition *)

(** X4. Whatever [NUM_NODES] is, the split either fails with the
    [ZeroDivisionError] of the ceiling, exactly when [NUM_NODES = 0], or
    returns exactly two task lists whose concatenation is the batch; this
    includes a negative [NUM_NODES], for which the slices count from the
    end. *)
Theorem node_tasks_outcome (A : Type) (l : list A) (k : Z) :
  (k = 0 /\
   exists e, Distributed.node_tasks k l = Raise e /\
             exn_class e = ZeroDivisionError) \/
  (k <> 0 /\
   exists p1 p2, Distributed.node_tasks k l = Ok [p1; p2] /\ p1 ++ p2 = l).
Proof.
  destruct (node_tasks_shape k l) as [H | [Hk [p1 [p2 H]]]]; [now left |].
  right. split; [exact Hk |]. exists p1, p2. split; [exact H |].
  pose proof (node_tasks_concat l k _ H) as Hc.
  simpl in Hc. now rewrite app_nil_r in Hc.
Qed.

(** X5. With [NUM_NODES = 2] the load is balanced to within one image: node
    1 gets [ceil(N / 2)] of the [N] images and node 2 the other
    [floor(N / 2)]. *)
Theorem two_nodes_are_balanced (A : Type) (l : list A) :
  let N := Z.of_nat (List.length l) in
  exists p1 p2,
    Distributed.node_tasks Distributed.NUM_NODES l = Ok [p1; p2] /\
    Z.of_nat (List.length p1) = (N + 1) / 2 /\
    Z.of_nat (List.length p2) = N / 2 /\
    Z.of_nat (List.length p2) <= Z.of_nat (List.length p1)
      <= Z.of_nat (List.length p2) + 1.
Proof.
  intros N.
  pose proof (node_tasks_slices l 2 ltac:(lia)) as H. cbv zeta in H.
  fold N in H. unfold spec_chunk_size in H.
  replace (N + 2 - 1) with (N + 1) in H by lia.
  assert (HN : 0 <= N) by (subst N; lia).
  assert (Hc : 0 <= (N + 1) / 2 <= N) by (Z.div_mod_to_equations; lia).
  rewrite Z.min_r in H by lia.
  do 2 eexists. split; [exact H |].
  unfold interval. rewrite Z.sub_0_r.
  rewrite !length_firstn, !length_skipn.
  assert (Hl : Z.of_nat (List.length l) = N) by reflexivity.
  assert (H1 : Z.of_nat
                 (Nat.min (Z.to_nat ((N + 1) / 2)) (List.length l - Z.to_nat 0))
               = (N + 1) / 2) by (simpl Z.to_nat; lia).
  assert (H2 : Z.of_nat
                 (Nat.min (Z.to_nat (N - (N + 1) / 2))
                    (List.length l - Z.to_nat ((N + 1) / 2)))
               = N / 2) by (Z.div_mod_to_equations; lia).
  rewrite H1, H2. repeat split; Z.div_mod_to_equations; lia.
Qed.

(** ** More on the distributed run *)






Section TwoNodes.
Variable E : Externals.



End TwoNodes.



(** ** More on the suite of parallel_process.py *)

Section Passes.
Variable E : Externals.
Variable tasks : list (path * path).



End Passes.





(** ** More on [process_image] *)



Section Font.
Variable E : Externals.
Hypothesis Hsucceed : other_calls_succeed E.

Lemma call_ok {A : Type} (f : world E -> pyresult A * world E) (s : state E)
    (a : A) (w' : world E) :
  f (st_world s) = (Ok a, w') ->
  call f s = (Ok a, mk_state E w' (st_log s) (st_queue s)).
Proof. intros H. unfold call. now rewrite H. Qed.

(** With the other calls succeeding, the suite reaches the loading of the
    font without a trace in the log. *)
Lemma suite_reaches_font (input_path output_path : path) (s0 : state E) :
  exists draw sa,
    logged s0 sa [] /\
    transform_suite E input_path output_path s0
    = (font <- try_except_IOError
                 (call (ImageFont_truetype E "arial.ttf" 10))
                 (call (ImageFont_load_default E)) ;;
       img <- call (draw_text E draw (5, snd TARGET_SIZE - 15)
                      WATERMARK_TEXT font (255, 255, 255)) ;;
       call (os_makedirs E (dirname output_path)) ;;;
       call (img_save E img output_path) ;;;
       emit (Saved output_path)) sa.
Proof.
  destruct Hsucceed as [Hopen [Hresize [Hconvert [Hdraw _]]]].
  unfold transform_suite.
  destruct (Hopen input_path (st_world s0)) as [img0 [w1 H1]].
  rewrite (bind_ok E _ _ _ (call_ok _ _ _ _ H1)).
  set (s1 := mk_state E w1 _ _).
  destruct (Hresize img0 TARGET_SIZE (st_world s1)) as [img1 [w2 H2]].
  rewrite (bind_ok E _ _ _ (call_ok _ _ _ _ H2)).
  set (s2 := mk_state E w2 _ _).
  assert (Hc : exists img2 s3,
             (if negb (img_mode_is_RGB E img1)
              then call (img_convert_RGB E img1) else ret img1) s2
             = (Ok img2, s3) /\ logged s2 s3 []).
  { destruct (negb (img_mode_is_RGB E img1)).
    - destruct (Hconvert img1 (st_world s2)) as [img2 [w3 H3]].
      exists img2. eexists. split; [exact (call_ok _ _ _ _ H3) |].
      split; simpl; now rewrite ?app_nil_r.
    - exists img1, s2. split; [reflexivity | apply logged_refl]. }
  destruct Hc as [img2 [s3 [H3 L3]]].
  rewrite (bind_ok E _ _ _ H3).
  destruct (Hdraw img2 (st_world s3)) as [draw [w4 H4]].
  rewrite (bind_ok E _ _ _ (call_ok _ _ _ _ H4)).
  exists draw. eexists. split; [| reflexivity].
  destruct L3 as [L3 Q3]. split; simpl; rewrite ?L3, ?Q3; reflexivity.
Qed.

(** After the font, the suite runs to its end and logs the save. *)
Lemma suite_after_font (output_path : path) (draw : image E) (fnt : font E)
    (sa : state E) :
  exists s1,
    (img <- call (draw_text E draw (5, snd TARGET_SIZE - 15)
                    WATERMARK_TEXT fnt (255, 255, 255)) ;;
     call (os_makedirs E (dirname output_path)) ;;;
     call (img_save E img output_path) ;;;
     emit (Saved output_path)) sa = (Ok tt, s1).
Proof.
  destruct Hsucceed as [_ [_ [_ [_ [Htext [Hmk Hsave]]]]]].
  destruct (Htext draw (5, snd TARGET_SIZE - 15) WATERMARK_TEXT fnt
              (255, 255, 255) (st_world sa)) as [img [w1 H1]].
  rewrite (bind_ok E _ _ _ (call_ok _ _ _ _ H1)).
  set (s1 := mk_state E w1 _ _).
  destruct (Hmk (dirname output_path) (st_world s1)) as [w2 H2].
  rewrite (bind_ok E _ _ _ (call_ok _ _ _ _ H2)).
  set (s2 := mk_state E w2 _ _).
  destruct (Hsave img output_path (st_world s2)) as [w3 H3].
  rewrite (bind_ok E _ _ _ (call_ok _ _ _ _ H3)).
  eexists. reflexivity.
Qed.

End Font.

(** X11. The font never costs an image by being absent. When every other
    call succeeds: if loading [arial.ttf] succeeds, or fails with an
    [IOError] after which the default font loads, [process_image] saves the
    image and returns [True]; if loading [arial.ttf] fails with an exception
    that is not an [IOError], the default font is not tried, the error line
    carries that exception and [process_image] returns [False]. *)
Theorem font_fallback (E : Externals) (input_path output_path : path)
    (s : state E) :
  other_calls_succeed E ->
  ((forall w,
      exists r w', ImageFont_truetype E "arial.ttf" 10 w = (r, w') /\
        match r with
        | Ok _ => True
        | Raise e =>
            is_OSError e = true /\
            exists fnt w'', ImageFont_load_default E w' = (Ok fnt, w'')
        end) ->
   exists s' evs,
     Parallel.process_image E (input_path, output_path) s
       = (Ok (PyBool true), s') /\
     logged s s' evs /\ saves evs = [output_path] /\ errors evs = []) /\
  ((forall w,
      exists e w', ImageFont_truetype E "arial.ttf" 10 w = (Raise e, w') /\
                   is_OSError e = false) ->
   exists e s',
     Parallel.process_image E (input_path, output_path) s
       = (Ok (PyBool false), s') /\
     is_OSError e = false /\
     st_log s' =
       st_log s ++ [Call input_path output_path; PrintError input_path e]).
Proof.
  intros Hs.
  set (s0 := snd (emit (Call input_path output_path) s)).
  destruct (suite_reaches_font E Hs input_path output_path s0)
    as [draw [sa [La Hsuite]]].
  split.
  - intros Hfont.
    destruct (parallel_process_image_spec E input_path output_path s)
      as [b [s' [evs [H [L [[_ [S R]] Hb]]]]]].
    assert (Hok : b = true).
    { apply Hb. fold s0. rewrite Hsuite.
      destruct (Hfont (st_world sa)) as [r [w1 [H1 Hr]]].
      destruct r as [fnt | e].
      - assert (Hf : try_except_IOError
                       (call (ImageFont_truetype E "arial.ttf" 10))
                       (call (ImageFont_load_default E)) sa
                     = (Ok fnt, mk_state E w1 (st_log sa) (st_queue sa)))
          by (unfold try_except_IOError; now rewrite (call_ok E _ _ _ _ H1)).
        rewrite (bind_ok E _ _ _ Hf). apply (suite_after_font E Hs).
      - destruct Hr as [He [fnt [w2 H2]]].
        assert (Hf : try_except_IOError
                       (call (ImageFont_truetype E "arial.ttf" 10))
                       (call (ImageFont_load_default E)) sa
                     = (Ok fnt, mk_state E w2 (st_log sa) (st_queue sa))).
        { unfold try_except_IOError, call at 1. rewrite H1, He.
          unfold call. cbn [st_world st_log st_queue]. now rewrite H2. }
        rewrite (bind_ok E _ _ _ Hf). apply (suite_after_font E Hs). }
    subst b. exists s', evs. auto.
  - intros Hfont.
    destruct (Hfont (st_world sa)) as [e [w1 [H1 He]]].
    exists e. eexists. split; [| split; [exact He |]].
    + unfold Parallel.process_image. unfold bind at 1. cbn [emit].
      fold s0. change (mk_state E (st_world s) _ (st_queue s)) with s0.
      unfold try_except. unfold bind at 1. rewrite Hsuite.
      unfold bind at 1. unfold try_except_IOError, call at 1.
      rewrite H1, He. unfold bind, emit, ret. reflexivity.
    + cbn [st_log]. destruct La as [La _]. rewrite La. subst s0. simpl.
      now rewrite app_nil_r, <- app_assoc.
Qed.

(** The world in which every file opens and [arial.ttf] is missing. *)
Lemma font_fallback_witness :
  exists s',
    Parallel.process_image Demo.good
      (["lab"; "images_dataset"; "a.png"]%string,
       ["lab"; "output_parallel"; "a.png"]%string)
      (mk_state Demo.good (Demo.mk_demo [] []) [] [])
    = (Ok (PyBool true), s').
Proof.
  assert (Hs : other_calls_succeed Demo.good)
    by (repeat split; intros; simpl; try destruct img; eauto;
        match goal with |- exists _ _, (Ok ?x, ?w) = _ =>
          exists x, w; reflexivity end).
  destruct (font_fallback Demo.good
              ["lab"; "images_dataset"; "a.png"]%string
              ["lab"; "output_parallel"; "a.png"]%string
              (mk_state Demo.good (Demo.mk_demo [] []) [] []) Hs)
    as [H _].
  destruct H as [s' [evs [H _]]].
  - intros w. do 2 eexists. split; [reflexivity |]. simpl.
    split; [reflexivity |]. now exists tt, w.
  - now exists s'.
Defined.

(** ** More on [node_worker] *)

